(** * Appointment Service: the appointment lifecycle controller

    A shallow embedding of [src/controllers/appointment.controller.js]
    (class [AppointmentController]) together with the table it works on
    (the [appointments] schema of the README) and the effects it performs:
    SQL statements on a pooled connection, HTTP calls to the patient,
    doctor, billing and notification services, log lines, and the reply
    handed to Express ([res.json] or [next(error)]).

    Conventions of the model
    - integers ([SERIAL], [INTEGER], counters) are [Z];
    - [appointment_date] is a day number and [start_time], [end_time] are
      minutes after midnight, so SQL comparisons of [DATE] and [TIME]
      values are comparisons on [Z];
    - ids and counters stay inside the range of [INTEGER], as the ids of
      the collaborators and the sequence of the table do, and the [:id]
      of a path is the decimal text of such an integer; a value outside
      that, which the database would refuse to read as an [INTEGER], is
      not modelled;
    - a JavaScript [Date] is its millisecond timestamp in [Z], or [None]
      for an Invalid Date; [new Date(`${date}T${time}`)] is a timestamp
      only where [date] reaches the template as the text [YYYY-MM-DD]
      (then it is [dateTime date time], days having 24 hours), and an
      Invalid Date where [date] is a [Date] object;
    - [hoursDiff] is the exact rational quotient, or [None] for [NaN]; the
      thresholds 1, 6 and 24 are whole numbers, so the comparisons of the
      IEEE double quotient of two integers agree with the rational ones,
      and every comparison with [NaN] is false;
    - [TEXT] columns that may be [NULL] are [option string]. *)

From stdpp Require Import gmap strings sorting.
From Stdlib Require Import ZArith QArith Lia.

Open Scope Z_scope.

(** ** Data model *)

(** [status VARCHAR(20)]: the four values the service ever writes or tests. *)
Inductive Status := SCHEDULED | COMPLETED | CANCELLED | NO_SHOW.

#[global] Instance Status_eq_dec : EqDecision Status.
Proof. solve_decision. Defined.

(** One row of [appointments], without its primary key [appointment_id]:
    the table below is keyed by it. *)
Record Appointment := mkAppointment {
  patient_id : Z;
  doctor_id : Z;
  appointment_date : Z;
  start_time : Z;
  end_time : Z;
  status : Status;
  reason : option string;
  notes : option string;
  reschedule_count : Z;
  version : Z;
  created_at : Z;
  updated_at : Z
}.

(** The [code] argument of [new AppError(message, statusCode, code)]. *)
Inductive ErrorCode :=
| PATIENT_NOT_FOUND
| DOCTOR_NOT_FOUND
| SERVICE_UNAVAILABLE
| INVALID_DATE
| SLOT_CONFLICT
| APPOINTMENT_NOT_FOUND
| INVALID_STATUS
| MAX_RESCHEDULE_EXCEEDED
| CUTOFF_TIME_EXCEEDED
| ALREADY_CANCELLED.

(** What a [throw] carries: an [AppError] with its HTTP status and code,
    the rejection of an axios call ([error.response?.status]), the
    driver's error for a violated [PRIMARY KEY] / [UNIQUE] constraint
    (SQLSTATE 23505), the driver's error for a statement the database
    refuses for another reason, with its SQLSTATE, or the [TypeError] of
    a property read on [undefined]. *)
Inductive Error :=
| AppError (statusCode : Z) (code : ErrorCode)
| AxiosError (responseStatus : option Z)
| UniqueViolation
| DatabaseError (sqlstate : string)
| TypeError.

Inductive RefundPolicy := FULL_REFUND | PARTIAL_REFUND | CANCELLATION_FEE.

(** A row as a query returns it: [appointment_id] and the other columns. *)
Abbreviation Row := (Z * Appointment)%type.

(** Connection a statement is issued on: the client checked out with
    [pool.connect()], or the pool itself ([pool.query], which runs the
    statement on some other pooled connection, in its own transaction). *)
Inductive Handle := Client | Pool.

(** The statements of the controller with their parameters. *)
Inductive Statement :=
| BEGIN
| COMMIT
| ROLLBACK
| SelectById (id : Z)
| SelectConflict (doctorId appointmentDate startTime endTime : Z)
                 (excludeAppointmentId : option Z)
| InsertAppointment (patientId doctorId appointmentDate startTime endTime : Z)
                    (reason notes : option string)
| UpdateReschedule (appointmentDate startTime endTime : Z) (reason : string)
                   (id : Z)
| UpdateCancel (reason : option string) (id : Z)
| UpdateComplete (notes : option string) (id : Z)
| UpdateNoShow (id : Z).

Inductive NotificationType :=
| APPOINTMENT_CONFIRMATION
| APPOINTMENT_RESCHEDULED
| CANCELLATION.

(** Requests sent with axios; the free-text [message] of a notification
    is left out, the fields that identify the request are kept. *)
Inductive HttpRequest :=
| GetPatient (patientId : Z)
| GetDoctor (doctorId : Z)
| PostNotification (type : NotificationType) (patientId appointmentId : Z)
| PostBillCancel (appointmentId : Z) (refund_policy : RefundPolicy)
| PostBill (appointmentId patientId doctorId amount : Z) (noShowFee : bool).

(** How an axios call ends: fulfilled with a body whose [data] member is
    an object (of which only [name] is ever read), fulfilled with a body
    whose [data] member is missing or [null], so that
    [response.data.data] has no [name] to read, or rejected with or
    without a response status. *)
Inductive AxiosResult :=
| Fulfilled (name : string)
| FulfilledWithoutData
| Rejected (responseStatus : option Z).

(** Body of a success reply: [{ success: true, data, refundPolicy }];
    [data] is [rows[0]] of a [RETURNING *]. *)
Record Payload := mkPayload {
  data : option Row;
  refundPolicy : option RefundPolicy
}.

(** Everything a handler does that is visible outside it, in order. *)
Inductive Event :=
| Query (h : Handle) (q : Statement)
| Http (r : HttpRequest) (result : AxiosResult)
| LogWarn (msg : string)
| LogInfo (msg : string)
| ResJson (httpStatus : Z) (body : Payload)
| Next (e : Error)
| Release.

(** What the handler does not control: the clock, the database server's
    [CURRENT_TIMESTAMP], the answers of the four collaborators, and the
    form in which the driver hands over a [DATE] column.  node-postgres
    parses a [DATE] into a JavaScript [Date] object; it hands over the
    text [YYYY-MM-DD] only when a type parser is installed for it, which
    would be done in [config/database.js], and that file is not among the
    sources: [dateAsText] is [false] for the driver as it comes. *)
Record Env := mkEnv {
  now : Z;                  (* first [new Date()] of a handler *)
  now_again : Z;            (* second [new Date()] of [rescheduleAppointment] *)
  CURRENT_TIMESTAMP : Z;
  patientService : Z -> AxiosResult;
  doctorService : Z -> AxiosResult;
  billingService : AxiosResult;
  notificationService : AxiosResult;
  dateAsText : bool
}.

(** ** The store *)

(** Committed rows, the [SERIAL] sequence behind [appointment_id], the
    rows as seen by the client's open transaction (if any), and the trace
    of events so far. *)
Record World := mkWorld {
  table : gmap Z Appointment;
  sequence : Z;
  txn : option (gmap Z Appointment);
  trace : list Event
}.

Definition emit (e : Event) (w : World) : World :=
  mkWorld (table w) (sequence w) (txn w) (trace w ++ [e]).

(** Rows visible to a statement issued on [h]. *)
Definition visible (h : Handle) (w : World) : gmap Z Appointment :=
  match h, txn w with
  | Client, Some rows => rows
  | _, _ => table w
  end.

(** Write the rows back: into the open transaction on the client,
    straight into the table otherwise (autocommit). *)
Definition store (h : Handle) (rows : gmap Z Appointment) (w : World) : World :=
  match h, txn w with
  | Client, Some _ => mkWorld (table w) (sequence w) (Some rows) (trace w)
  | _, _ => mkWorld rows (sequence w) (txn w) (trace w)
  end.

(** ** Async functions: state and exceptions *)

Inductive Outcome (A : Type) :=
| Return (a : A)
| Throw (e : Error).
Arguments Return {A} a.
Arguments Throw {A} e.

Definition Task (A : Type) : Type := World -> World * Outcome A.

Definition ret {A} (a : A) : Task A := fun w => (w, Return a).

Definition throw {A} (e : Error) : Task A := fun w => (w, Throw e).

Definition bind {A B} (c : Task A) (k : A -> Task B) : Task B :=
  fun w =>
    match c w with
    | (w', Return a) => k a w'
    | (w', Throw e) => (w', Throw e)
    end.

Notation "'let*' x ':=' c 'in' k" := (bind c (fun x => k))
  (at level 10, x pattern, c at level 100, k at level 200).
Notation "'await' c 'in' k" := (bind c (fun _ => k))
  (at level 10, c at level 100, k at level 200).

(** [try { body } catch (error) { handler }] *)
Definition try_catch {A} (body : Task A) (handler : Error -> Task A) : Task A :=
  fun w =>
    match body w with
    | (w', Return a) => (w', Return a)
    | (w', Throw e) => handler e w'
    end.

(** [try { body } finally { cleanup }] *)
Definition try_finally {A} (body : Task A) (cleanup : Task unit) : Task A :=
  fun w =>
    match body w with
    | (w', r) =>
        match cleanup w' with
        | (w'', Return _) => (w'', r)
        | (w'', Throw e) => (w'', Throw e)
        end
    end.

Definition tell (e : Event) : Task unit := fun w => (emit e w, Return tt).

(** ** SQL statements *)

(** [status NOT IN ('CANCELLED', 'COMPLETED')] *)
Definition status_not_in_cancelled_completed (s : Status) : bool :=
  match s with
  | CANCELLED | COMPLETED => false
  | SCHEDULED | NO_SHOW => true
  end.

(** The [WHERE] clause of the two conflict queries of [checkSlotConflict];
    without [excludeAppointmentId] the clause [appointment_id != $3] is
    absent. *)
Definition conflict_where (doctorId appointmentDate startTime endTime : Z)
    (excludeAppointmentId : option Z) (id : Z) (r : Appointment) : bool :=
  (doctor_id r =? doctorId)
  && (appointment_date r =? appointmentDate)
  && status_not_in_cancelled_completed (status r)
  && match excludeAppointmentId with
     | Some x => negb (id =? x)
     | None => true
     end
  && ((start_time r <? endTime) && (end_time r >? startTime)
      || (start_time r >=? startTime) && (start_time r <? endTime)).

(** [UNIQUE(doctor_id, appointment_date, start_time)] of the schema: some
    other row already holds the triple of [r]. *)
Definition unique_taken (rows : gmap Z Appointment) (id : Z) (r : Appointment)
    : Prop :=
  map_Exists (fun k x => k ≠ id
                         ∧ doctor_id x = doctor_id r
                         ∧ appointment_date x = appointment_date r
                         ∧ start_time x = start_time r) rows.

(** [CONCAT(COALESCE(notes, ''), E'\n<label>', text)] *)
Definition append_note (old : option string) (label text : string)
    : option string :=
  Some (default "" old +:+ String (Ascii.ascii_of_nat 10) label +:+ text).

(** [COALESCE($1::text, fallback)] *)
Definition coalesce (x : option string) (fallback : string) : string :=
  default fallback x.

(** The [SET] list of the cancel, complete and no-show [UPDATE]s: status,
    notes and [updated_at]. *)
Definition set_status (s : Status) (newNotes : option string) (ts : Z)
    (r : Appointment) : Appointment :=
  {| patient_id := patient_id r;
     doctor_id := doctor_id r;
     appointment_date := appointment_date r;
     start_time := start_time r;
     end_time := end_time r;
     status := s;
     reason := reason r;
     notes := newNotes;
     reschedule_count := reschedule_count r;
     version := version r;
     created_at := created_at r;
     updated_at := ts |}.

(** Modelled from the spec: the file that creates the table
    ([config/database.js]) is not among the sources.  The row an [INSERT]
    of the controller makes takes, for the columns it does not list, the
    defaults of the schema printed in the README, which the specification
    repeats for a booking ([rescheduleCount] 0, [version] 1); both
    timestamps default to [CURRENT_TIMESTAMP]. *)
Definition new_row (env : Env)
    (patientId doctorId appointmentDate startTime endTime : Z)
    (why remarks : option string) : Appointment :=
  {| patient_id := patientId;
     doctor_id := doctorId;
     appointment_date := appointmentDate;
     start_time := startTime;
     end_time := endTime;
     status := SCHEDULED;
     reason := why;
     notes := remarks;
     reschedule_count := 0;
     version := 1;
     created_at := CURRENT_TIMESTAMP env;
     updated_at := CURRENT_TIMESTAMP env |}.

(** [UPDATE appointments SET ... WHERE appointment_id = id RETURNING *]
    for a [SET] list that touches no column of a constraint. *)
Definition update_where_id (h : Handle) (id : Z)
    (set : Appointment -> Appointment) (w : World)
    : World * Outcome (list Row) :=
  match visible h w !! id with
  | None => (w, Return [])
  | Some r => (store h (<[id := set r]> (visible h w)) w, Return [(id, set r)])
  end.

(** What the database does with a statement, and the rows it returns.
    An [INSERT] draws [appointment_id] from the [SERIAL] sequence, and
    [nextval] is not undone when the insert fails.

    The reschedule [UPDATE] is refused when it is prepared, whatever the
    table holds: its [$4] is an argument of [CONCAT], which takes
    arguments of any type, and nothing else in the statement gives the
    parameter a type (SQLSTATE 42P18, "could not determine data type of
    parameter $4").  The cancel and complete [UPDATE]s write [$1::text]
    in that place and are accepted. *)
Definition execute (env : Env) (h : Handle) (q : Statement) (w : World)
    : World * Outcome (list Row) :=
  match q with
  | BEGIN =>
      match h with
      | Client => (mkWorld (table w) (sequence w) (Some (table w)) (trace w),
                   Return [])
      | Pool => (w, Return [])
      end
  | COMMIT =>
      match h, txn w with
      | Client, Some rows => (mkWorld rows (sequence w) None (trace w), Return [])
      | _, _ => (w, Return [])
      end
  | ROLLBACK =>
      match h with
      | Client => (mkWorld (table w) (sequence w) None (trace w), Return [])
      | Pool => (w, Return [])
      end
  | SelectById id =>
      (w, Return match visible h w !! id with
                 | Some r => [(id, r)]
                 | None => []
                 end)
  | SelectConflict doctorId appointmentDate startTime endTime exclude =>
      (w, Return (map_to_list
                    (filter (fun kr => conflict_where doctorId appointmentDate
                                         startTime endTime exclude
                                         kr.1 kr.2 = true)
                            (visible h w))))
  | InsertAppointment patientId doctorId appointmentDate startTime endTime
                      why remarks =>
      let id := sequence w in
      let r := new_row env patientId doctorId appointmentDate startTime
                       endTime why remarks in
      let w1 := mkWorld (table w) (sequence w + 1) (txn w) (trace w) in
      if decide (is_Some (visible h w !! id) ∨ unique_taken (visible h w) id r)
      then (w1, Throw UniqueViolation)
      else (store h (<[id := r]> (visible h w)) w1, Return [(id, r)])
  | UpdateReschedule appointmentDate startTime endTime why id =>
      (w, Throw (DatabaseError "42P18"))
  | UpdateCancel why id =>
      update_where_id h id
        (fun r => set_status CANCELLED
                    (append_note (notes r) "Cancelled: "
                                 (coalesce why "No reason provided"))
                    (CURRENT_TIMESTAMP env) r) w
  | UpdateComplete remarks id =>
      update_where_id h id
        (fun r => set_status COMPLETED
                    (append_note (notes r) "Completion notes: "
                                 (coalesce remarks "No notes"))
                    (CURRENT_TIMESTAMP env) r) w
  | UpdateNoShow id =>
      update_where_id h id
        (fun r => set_status NO_SHOW (notes r) (CURRENT_TIMESTAMP env) r) w
  end.

(** [client.query(...)] and [pool.query(...)] *)
Definition query (env : Env) (h : Handle) (q : Statement) : Task (list Row) :=
  fun w => execute env h q (emit (Query h q) w).

(** ** Policy arithmetic *)

(** The controller computes these inline; they are named here so that the
    handlers below read like the source. *)

(** The timestamp, in milliseconds, of the ISO text
    [YYYY-MM-DDTHH:MM] for a day number and minutes after midnight. *)
Definition dateTime (appointmentDate startTime : Z) : Z :=
  appointmentDate * 86400000 + startTime * 60000.

(** A date as a template literal meets it: the text [YYYY-MM-DD], or a
    JavaScript [Date] object standing at that day. *)
Inductive DateValue :=
| DateText (day : Z)
| DateObject (day : Z).

(** [new Date(`${date}T${time}`)].  A [Date] object is interpolated in
    its long form ("Sat Mar 01 2025 00:00:00 GMT+0000 (...)"), and that
    text followed by [T] and a time is no date: the result is an Invalid
    Date, [None]. *)
Definition newDate (date : DateValue) (time : Z) : option Z :=
  match date with
  | DateText day => Some (dateTime day time)
  | DateObject _ => None
  end.

(** [row.appointment_date] of a row the driver returns. *)
Definition column_date (env : Env) (day : Z) : DateValue :=
  if dateAsText env then DateText day else DateObject day.

(** [a <= b] on two [Date]s, [b] being a valid one: the comparison of
    their timestamps, false when [a] is an Invalid Date. *)
Definition date_leb (a : option Z) (b : Z) : bool :=
  match a with
  | Some t => t <=? b
  | None => false
  end.

(** [(dateTime - now) / (1000 * 60 * 60)] on timestamps *)
Definition hoursDiff (appointmentDateTime current : Z) : Q :=
  (inject_Z (appointmentDateTime - current) / inject_Z (1000 * 60 * 60))%Q.

(** The same on [Date]s: [NaN] when the first is an Invalid Date. *)
Definition hoursBetween (appointmentDateTime : option Z) (current : Z)
    : option Q :=
  match appointmentDateTime with
  | Some t => Some (hoursDiff t current)
  | None => None
  end.

(** [x >= y] and [x < y] on rationals *)
Definition Qge_bool (x y : Q) : bool := Qle_bool y x.
Definition Qlt_bool (x y : Q) : bool := negb (Qle_bool y x).

(** [x >= y] and [x < y] on numbers: false when [x] is [NaN]. *)
Definition number_geb (x : option Q) (y : Q) : bool :=
  match x with
  | Some v => Qge_bool v y
  | None => false
  end.

Definition number_ltb (x : option Q) (y : Q) : bool :=
  match x with
  | Some v => Qlt_bool v y
  | None => false
  end.

(** The [if] / [else if] / [else] cascade of [cancelAppointment]. *)
Definition refund_policy_of (diff : option Q) : RefundPolicy :=
  if number_geb diff (inject_Z 24) then FULL_REFUND
  else if number_geb diff (inject_Z 6) then PARTIAL_REFUND
  else CANCELLATION_FEE.

(** ** Request bodies *)

(** The bodies as the handlers receive them.  The routes that take a
    body run [validate(schema)] first, which replaces [req.body] by the
    value Joi has converted; the schemas declare [appointment_date] as
    [Joi.date()], so the handlers find a [Date] object there, standing at
    the day the client sent. *)
Definition validated_date (day : Z) : DateValue := DateObject day.

Module Book.
Record body := mk {
  patient_id : Z;
  doctor_id : Z;
  appointment_date : Z;
  start_time : Z;
  end_time : Z;
  reason : option string;
  notes : option string
}.
End Book.

Module Reschedule.
Record body := mk {
  appointment_date : Z;
  start_time : Z;
  end_time : Z;
  reason : option string
}.
End Reschedule.

(** [reason || 'No reason provided']: [undefined] and the empty string
    are both falsy. *)
Definition or_default (x : option string) (fallback : string) : string :=
  match x with
  | Some s => if decide (s = "") then fallback else s
  | None => fallback
  end.

(** ** The controller *)

(** [axios.get] / [axios.post]: the request goes out, the promise settles
    as the collaborator decides; the value is [response.data.data], of
    which the callers read [name], or [None] for [undefined] and
    [null]. *)
Definition axios (r : HttpRequest) (result : AxiosResult)
    : Task (option string) :=
  await tell (Http r result) in
  match result with
  | Fulfilled name => ret (Some name)
  | FulfilledWithoutData => ret None
  | Rejected st => throw (AxiosError st)
  end.

(** [error.response?.status === 404] *)
Definition response_status_is_404 (error : Error) : bool :=
  match error with
  | AxiosError (Some st) => st =? 404
  | _ => false
  end.

Definition validatePatient (env : Env) (patientId : Z)
    : Task (option string) :=
  try_catch
    (axios (GetPatient patientId) (patientService env patientId))
    (fun error =>
       if response_status_is_404 error
       then throw (AppError 404 PATIENT_NOT_FOUND)
       else throw (AppError 503 SERVICE_UNAVAILABLE)).

Definition validateDoctor (env : Env) (doctorId : Z)
    : Task (option string) :=
  try_catch
    (axios (GetDoctor doctorId) (doctorService env doctorId))
    (fun error =>
       if response_status_is_404 error
       then throw (AppError 404 DOCTOR_NOT_FOUND)
       else throw (AppError 503 SERVICE_UNAVAILABLE)).

(** The route always passes the id of the path as [excludeAppointmentId]
    (a non-empty string, hence truthy); booking passes nothing. *)
Definition checkSlotConflict (env : Env)
    (doctorId appointmentDate startTime endTime : Z)
    (excludeAppointmentId : option Z) : Task bool :=
  let* result := query env Pool
                   (SelectConflict doctorId appointmentDate startTime endTime
                                   excludeAppointmentId) in
  ret (bool_decide (0 < length result)%nat).

(** The callers do not await this promise; it cannot reject, and its
    request and its warning are placed in the trace where it is called. *)
Definition sendNotification (env : Env) (type : NotificationType)
    (patientId appointmentId : Z) : Task unit :=
  try_catch
    (await axios (PostNotification type patientId appointmentId)
                 (notificationService env) in
     ret tt)
    (fun error => tell (LogWarn "Failed to send notification")).

(** [doctor.name] and [appointment.appointment_id] are read when the
    argument of [sendNotification] is built, after the [COMMIT]: a
    [TypeError] there is caught by the [catch] of the handler. *)
Definition bookAppointment (env : Env) (body : Book.body) : Task unit :=
  try_finally
    (try_catch
       (await query env Client BEGIN in
        let* patient := validatePatient env (Book.patient_id body) in
        let* doctor := validateDoctor env (Book.doctor_id body) in
        let appointmentDateTime :=
          newDate (validated_date (Book.appointment_date body))
                  (Book.start_time body) in
        if date_leb appointmentDateTime (now env)
        then throw (AppError 400 INVALID_DATE)
        else
          let* hasConflict :=
            checkSlotConflict env (Book.doctor_id body)
              (Book.appointment_date body) (Book.start_time body)
              (Book.end_time body) None in
          if hasConflict
          then throw (AppError 409 SLOT_CONFLICT)
          else
            let* result :=
              query env Client
                (InsertAppointment (Book.patient_id body) (Book.doctor_id body)
                   (Book.appointment_date body) (Book.start_time body)
                   (Book.end_time body) (Book.reason body) (Book.notes body)) in
            await query env Client COMMIT in
            match doctor, result with
            | Some name, appointment :: _ =>
                await sendNotification env APPOINTMENT_CONFIRMATION
                        (Book.patient_id body) appointment.1 in
                await tell (LogInfo "Appointment booked") in
                tell (ResJson 201 (mkPayload (Some appointment) None))
            | _, _ => throw TypeError
            end)
       (fun error =>
          await query env Client ROLLBACK in
          tell (Next error)))
    (tell Release).

Definition rescheduleAppointment (env : Env) (id : Z) (body : Reschedule.body)
    : Task unit :=
  try_finally
    (try_catch
       (await query env Client BEGIN in
        let* existingResult := query env Client (SelectById id) in
        match existingResult with
        | [] => throw (AppError 404 APPOINTMENT_NOT_FOUND)
        | existing :: _ =>
            if decide (status existing.2 = CANCELLED
                       ∨ status existing.2 = COMPLETED)
            then throw (AppError 400 INVALID_STATUS)
            else if reschedule_count existing.2 >=? 2
            then throw (AppError 400 MAX_RESCHEDULE_EXCEEDED)
            else
              let existingDateTime :=
                newDate (column_date env (appointment_date existing.2))
                        (start_time existing.2) in
              if number_ltb (hoursBetween existingDateTime (now env))
                            (inject_Z 1)
              then throw (AppError 400 CUTOFF_TIME_EXCEEDED)
              else
                let newDateTime :=
                  newDate (validated_date (Reschedule.appointment_date body))
                          (Reschedule.start_time body) in
                if date_leb newDateTime (now_again env)
                then throw (AppError 400 INVALID_DATE)
                else
                  let* hasConflict :=
                    checkSlotConflict env (doctor_id existing.2)
                      (Reschedule.appointment_date body)
                      (Reschedule.start_time body)
                      (Reschedule.end_time body) (Some id) in
                  if hasConflict
                  then throw (AppError 409 SLOT_CONFLICT)
                  else
                    let* result :=
                      query env Client
                        (UpdateReschedule (Reschedule.appointment_date body)
                           (Reschedule.start_time body)
                           (Reschedule.end_time body)
                           (or_default (Reschedule.reason body)
                                       "No reason provided")
                           id) in
                    await query env Client COMMIT in
                    match result with
                    | [] => throw TypeError
                    | appointment :: _ =>
                        await sendNotification env APPOINTMENT_RESCHEDULED
                                (patient_id appointment.2) appointment.1 in
                        await tell (LogInfo "Appointment rescheduled") in
                        tell (ResJson 200 (mkPayload (Some appointment) None))
                    end
        end)
       (fun error =>
          await query env Client ROLLBACK in
          tell (Next error)))
    (tell Release).

(** [try { await axios.post(billing ...) } catch (error) { logger.warn(...) }] *)
Definition notifyBilling (env : Env) (r : HttpRequest) (warning : string)
    : Task unit :=
  try_catch
    (await axios r (billingService env) in ret tt)
    (fun error => tell (LogWarn warning)).

Definition cancelAppointment (env : Env) (id : Z) (why : option string)
    : Task unit :=
  try_finally
    (try_catch
       (await query env Client BEGIN in
        let* result := query env Client (SelectById id) in
        match result with
        | [] => throw (AppError 404 APPOINTMENT_NOT_FOUND)
        | appointment :: _ =>
            if decide (status appointment.2 = CANCELLED)
            then throw (AppError 400 ALREADY_CANCELLED)
            else if decide (status appointment.2 = COMPLETED)
            then throw (AppError 400 INVALID_STATUS)
            else
              let* updateResult := query env Client (UpdateCancel why id) in
              let cancelledAppointment := head updateResult in
              let appointmentDateTime :=
                newDate (column_date env (appointment_date appointment.2))
                        (start_time appointment.2) in
              let refund :=
                refund_policy_of (hoursBetween appointmentDateTime (now env)) in
              await query env Client COMMIT in
              await notifyBilling env (PostBillCancel id refund)
                      "Failed to notify billing service" in
              await sendNotification env CANCELLATION
                      (patient_id appointment.2) id in
              await tell (LogInfo "Appointment cancelled") in
              tell (ResJson 200 (mkPayload cancelledAppointment (Some refund)))
        end)
       (fun error =>
          await query env Client ROLLBACK in
          tell (Next error)))
    (tell Release).

Definition completeAppointment (env : Env) (id : Z) (remarks : option string)
    : Task unit :=
  try_finally
    (try_catch
       (await query env Client BEGIN in
        let* result := query env Client (SelectById id) in
        match result with
        | [] => throw (AppError 404 APPOINTMENT_NOT_FOUND)
        | appointment :: _ =>
            if decide (status appointment.2 ≠ SCHEDULED)
            then throw (AppError 400 INVALID_STATUS)
            else
              let* updateResult := query env Client (UpdateComplete remarks id) in
              let completedAppointment := head updateResult in
              await query env Client COMMIT in
              await notifyBilling env
                      (PostBill id (patient_id appointment.2)
                                (doctor_id appointment.2) 500 false)
                      "Failed to generate bill" in
              await tell (LogInfo "Appointment completed") in
              tell (ResJson 200 (mkPayload completedAppointment None))
        end)
       (fun error =>
          await query env Client ROLLBACK in
          tell (Next error)))
    (tell Release).

Definition markNoShow (env : Env) (id : Z) : Task unit :=
  try_finally
    (try_catch
       (await query env Client BEGIN in
        let* result := query env Client (SelectById id) in
        match result with
        | [] => throw (AppError 404 APPOINTMENT_NOT_FOUND)
        | appointment :: _ =>
            if decide (status appointment.2 ≠ SCHEDULED)
            then throw (AppError 400 INVALID_STATUS)
            else
              let* updateResult := query env Client (UpdateNoShow id) in
              await query env Client COMMIT in
              await notifyBilling env
                      (PostBill id (patient_id appointment.2)
                                (doctor_id appointment.2) 100 true)
                      "Failed to generate no-show fee" in
              await tell (LogInfo "Appointment marked as no-show") in
              tell (ResJson 200 (mkPayload (head updateResult) None))
        end)
       (fun error =>
          await query env Client ROLLBACK in
          tell (Next error)))
    (tell Release).

(** ** Commands *)

(** The five mutating routes of [routes/appointment.routes.js], with a
    body that has passed the validator of the route. *)
Inductive Command :=
| BookCmd (body : Book.body)
| RescheduleCmd (id : Z) (body : Reschedule.body)
| CancelCmd (id : Z) (reason : option string)
| CompleteCmd (id : Z) (notes : option string)
| NoShowCmd (id : Z).

Definition handler (env : Env) (c : Command) : Task unit :=
  match c with
  | BookCmd body => bookAppointment env body
  | RescheduleCmd id body => rescheduleAppointment env id body
  | CancelCmd id why => cancelAppointment env id why
  | CompleteCmd id remarks => completeAppointment env id remarks
  | NoShowCmd id => markNoShow env id
  end.

(** A request served on a fresh client: no transaction open, empty trace. *)
Definition fresh (rows : gmap Z Appointment) (seq : Z) : World :=
  mkWorld rows seq None [].

Definition serve (env : Env) (c : Command) (rows : gmap Z Appointment)
    (seq : Z) : World :=
  (handler env c (fresh rows seq)).1.

(** What Express gets back: the [res.json] and [next] calls of a trace. *)
Definition is_reply (e : Event) : bool :=
  match e with
  | ResJson _ _ | Next _ => true
  | _ => false
  end.

Definition replies (w : World) : list Event :=
  List.filter is_reply (trace w).

(** Statements of a trace with the connection they ran on. *)
Definition statements (w : World) : list (Handle * Statement) :=
  omap (fun e => match e with Query h q => Some (h, q) | _ => None end)
       (trace w).

(** ** Slot conflicts, as the specification words them *)

(** The rule of the specification: an active appointment of the same
    doctor and day, other than the excluded one, whose half-open interval
    overlaps the candidate. *)
Definition half_open_conflict (rows : gmap Z Appointment)
    (doctorId appointmentDate startTime endTime : Z)
    (excludeAppointmentId : option Z) : Prop :=
  ∃ id r,
    rows !! id = Some r
    ∧ doctor_id r = doctorId
    ∧ appointment_date r = appointmentDate
    ∧ status r ≠ CANCELLED ∧ status r ≠ COMPLETED
    ∧ (∀ x, excludeAppointmentId = Some x → id ≠ x)
    ∧ start_time r < endTime ∧ startTime < end_time r.

(** The answer of [checkSlotConflict] on a world. *)
Definition hasConflict (env : Env) (w : World)
    (doctorId appointmentDate startTime endTime : Z)
    (excludeAppointmentId : option Z) : Outcome bool :=
  (checkSlotConflict env doctorId appointmentDate startTime endTime
                     excludeAppointmentId w).2.


(** ** The paths through the handlers *)

(** The error [validatePatient] / [validateDoctor] rethrow. *)
Definition lookup_failure (notFound : ErrorCode) (st : option Z) : Error :=
  if response_status_is_404 (AxiosError st)
  then AppError 404 notFound
  else AppError 503 SERVICE_UNAVAILABLE.

(** The promise of a lookup is fulfilled, with or without a [data]
    member in the body. *)
Definition fulfilled (result : AxiosResult) : Prop :=
  ∀ st, result ≠ Rejected st.

(** A post-commit call with its [catch]: the request, and the warning when
    it is rejected. *)
Definition best_effort (r : HttpRequest) (result : AxiosResult)
    (warning : string) : list Event :=
  Http r result ::
  match result with
  | Rejected _ => [LogWarn warning]
  | _ => []
  end.

(** Some committed row satisfies the clause of the conflict query. *)
Definition conflicting (rows : gmap Z Appointment)
    (doctorId appointmentDate startTime endTime : Z)
    (excludeAppointmentId : option Z) : Prop :=
  map_Exists (fun id r => conflict_where doctorId appointmentDate startTime
                            endTime excludeAppointmentId id r = true) rows.

(** The two lookups of a booking, both answered. *)
Definition book_lookups (env : Env) (body : Book.body) : list Event :=
  [Http (GetPatient (Book.patient_id body))
        (patientService env (Book.patient_id body));
   Http (GetDoctor (Book.doctor_id body))
        (doctorService env (Book.doctor_id body))].

Definition book_conflict_query (body : Book.body) : Statement :=
  SelectConflict (Book.doctor_id body) (Book.appointment_date body)
                 (Book.start_time body) (Book.end_time body) None.

Definition book_insert (body : Book.body) : Statement :=
  InsertAppointment (Book.patient_id body) (Book.doctor_id body)
    (Book.appointment_date body) (Book.start_time body) (Book.end_time body)
    (Book.reason body) (Book.notes body).

Definition booked_row (env : Env) (body : Book.body) : Appointment :=
  new_row env (Book.patient_id body) (Book.doctor_id body)
    (Book.appointment_date body) (Book.start_time body) (Book.end_time body)
    (Book.reason body) (Book.notes body).

Definition reschedule_conflict_query (a : Appointment) (id : Z)
    (body : Reschedule.body) : Statement :=
  SelectConflict (doctor_id a) (Reschedule.appointment_date body)
                 (Reschedule.start_time body) (Reschedule.end_time body)
                 (Some id).

Definition reschedule_update (id : Z) (body : Reschedule.body) : Statement :=
  UpdateReschedule (Reschedule.appointment_date body)
    (Reschedule.start_time body) (Reschedule.end_time body)
    (or_default (Reschedule.reason body) "No reason provided") id.

Definition cancelled_row (env : Env) (why : option string) (a : Appointment)
    : Appointment :=
  set_status CANCELLED
    (append_note (notes a) "Cancelled: " (coalesce why "No reason provided"))
    (CURRENT_TIMESTAMP env) a.

Definition completed_row (env : Env) (remarks : option string)
    (a : Appointment) : Appointment :=
  set_status COMPLETED
    (append_note (notes a) "Completion notes: " (coalesce remarks "No notes"))
    (CURRENT_TIMESTAMP env) a.

Definition no_show_row (env : Env) (a : Appointment) : Appointment :=
  set_status NO_SHOW (notes a) (CURRENT_TIMESTAMP env) a.

(** [existingDateTime] of [rescheduleAppointment] and
    [appointmentDateTime] of [cancelAppointment] for a stored row. *)
Definition stored_dateTime (env : Env) (a : Appointment) : option Z :=
  newDate (column_date env (appointment_date a)) (start_time a).

(** The cutoff test of [rescheduleAppointment] fires: date and start of
    the row make a timestamp, and it lies less than one hour, 3600000
    milliseconds, after now. *)
Definition within_cutoff (env : Env) (a : Appointment) : Prop :=
  match stored_dateTime env a with
  | Some t => t - now env < 3600000
  | None => False
  end.

#[global] Instance within_cutoff_dec env a : Decision (within_cutoff env a).
Proof. unfold within_cutoff. destruct (stored_dateTime env a); apply _. Defined.

(** The refund tier [cancelAppointment] computes for a row. *)
Definition refund_of (env : Env) (a : Appointment) : RefundPolicy :=
  refund_policy_of (hoursBetween (stored_dateTime env a) (now env)).

(** A handler that threw before its [COMMIT]: [steps] after [BEGIN], then
    the [catch]. *)
Definition rolled_back (rows : gmap Z Appointment) (seq : Z)
    (steps : list Event) (e : Error) : World :=
  mkWorld rows seq None
    (Query Client BEGIN :: steps ++ [Query Client ROLLBACK; Next e; Release]).

(** A handler that committed: [steps] after [BEGIN], the [COMMIT], the
    post-commit events [after], the reply. *)
Definition committed (rows : gmap Z Appointment) (seq : Z)
    (steps after : list Event) (httpStatus : Z) (body : Payload) : World :=
  mkWorld rows seq None
    (Query Client BEGIN :: steps ++ Query Client COMMIT :: after
       ++ [ResJson httpStatus body; Release]).

(** A handler that threw after its [COMMIT]: the [catch] sends its
    [ROLLBACK] all the same, which finds no transaction to undo. *)
Definition failed_after_commit (rows : gmap Z Appointment) (seq : Z)
    (steps : list Event) (e : Error) : World :=
  mkWorld rows seq None
    (Query Client BEGIN :: steps
       ++ [Query Client COMMIT; Query Client ROLLBACK; Next e; Release]).

(** The appointment a command addresses by its path parameter. *)
Definition target (c : Command) : option Z :=
  match c with
  | BookCmd _ => None
  | RescheduleCmd id _ | CancelCmd id _ | CompleteCmd id _ | NoShowCmd id =>
      Some id
  end.

(** Every way a request can go, with the world it leaves behind: one
    constructor per [throw] site that can be reached and per success of
    the five handlers.  [serve_Served] below shows that [serve] always
    takes one of them.  The two tests that throw [INVALID_DATE] have no
    constructor: they compare an Invalid Date, and never fire; and
    [rescheduleAppointment] has no success, its [UPDATE] being refused. *)
Inductive Served (env : Env) (rows : gmap Z Appointment) (seq : Z)
    : Command -> World -> Prop :=
| book_patient_rejected body st :
    patientService env (Book.patient_id body) = Rejected st ->
    Served env rows seq (BookCmd body)
      (rolled_back rows seq
         [Http (GetPatient (Book.patient_id body)) (Rejected st)]
         (lookup_failure PATIENT_NOT_FOUND st))
| book_doctor_rejected body st :
    fulfilled (patientService env (Book.patient_id body)) ->
    doctorService env (Book.doctor_id body) = Rejected st ->
    Served env rows seq (BookCmd body)
      (rolled_back rows seq
         [Http (GetPatient (Book.patient_id body))
               (patientService env (Book.patient_id body));
          Http (GetDoctor (Book.doctor_id body)) (Rejected st)]
         (lookup_failure DOCTOR_NOT_FOUND st))
| book_slot_conflict body :
    fulfilled (patientService env (Book.patient_id body)) ->
    fulfilled (doctorService env (Book.doctor_id body)) ->
    conflicting rows (Book.doctor_id body) (Book.appointment_date body)
                (Book.start_time body) (Book.end_time body) None ->
    Served env rows seq (BookCmd body)
      (rolled_back rows seq
         (book_lookups env body ++ [Query Pool (book_conflict_query body)])
         (AppError 409 SLOT_CONFLICT))
| book_unique_violation body :
    fulfilled (patientService env (Book.patient_id body)) ->
    fulfilled (doctorService env (Book.doctor_id body)) ->
    ¬ conflicting rows (Book.doctor_id body) (Book.appointment_date body)
                  (Book.start_time body) (Book.end_time body) None ->
    is_Some (rows !! seq) ∨ unique_taken rows seq (booked_row env body) ->
    Served env rows seq (BookCmd body)
      (rolled_back rows (seq + 1)
         (book_lookups env body
          ++ [Query Pool (book_conflict_query body);
              Query Client (book_insert body)])
         UniqueViolation)
| book_doctor_without_data body :
    fulfilled (patientService env (Book.patient_id body)) ->
    doctorService env (Book.doctor_id body) = FulfilledWithoutData ->
    ¬ conflicting rows (Book.doctor_id body) (Book.appointment_date body)
                  (Book.start_time body) (Book.end_time body) None ->
    ¬ (is_Some (rows !! seq) ∨ unique_taken rows seq (booked_row env body)) ->
    Served env rows seq (BookCmd body)
      (failed_after_commit (<[seq := booked_row env body]> rows) (seq + 1)
         (book_lookups env body
          ++ [Query Pool (book_conflict_query body);
              Query Client (book_insert body)])
         TypeError)
| book_accepted body doctor :
    fulfilled (patientService env (Book.patient_id body)) ->
    doctorService env (Book.doctor_id body) = Fulfilled doctor ->
    ¬ conflicting rows (Book.doctor_id body) (Book.appointment_date body)
                  (Book.start_time body) (Book.end_time body) None ->
    ¬ (is_Some (rows !! seq) ∨ unique_taken rows seq (booked_row env body)) ->
    Served env rows seq (BookCmd body)
      (committed (<[seq := booked_row env body]> rows) (seq + 1)
         (book_lookups env body
          ++ [Query Pool (book_conflict_query body);
              Query Client (book_insert body)])
         (best_effort
            (PostNotification APPOINTMENT_CONFIRMATION
                              (Book.patient_id body) seq)
            (notificationService env) "Failed to send notification"
          ++ [LogInfo "Appointment booked"])
         201 (mkPayload (Some (seq, booked_row env body)) None))
| appointment_not_found c id :
    target c = Some id ->
    rows !! id = None ->
    Served env rows seq c
      (rolled_back rows seq [Query Client (SelectById id)]
         (AppError 404 APPOINTMENT_NOT_FOUND))
| reschedule_invalid_status id body a :
    rows !! id = Some a ->
    status a = CANCELLED ∨ status a = COMPLETED ->
    Served env rows seq (RescheduleCmd id body)
      (rolled_back rows seq [Query Client (SelectById id)]
         (AppError 400 INVALID_STATUS))
| reschedule_max_exceeded id body a :
    rows !! id = Some a ->
    ¬ (status a = CANCELLED ∨ status a = COMPLETED) ->
    2 ≤ reschedule_count a ->
    Served env rows seq (RescheduleCmd id body)
      (rolled_back rows seq [Query Client (SelectById id)]
         (AppError 400 MAX_RESCHEDULE_EXCEEDED))
| reschedule_cutoff_exceeded id body a :
    rows !! id = Some a ->
    ¬ (status a = CANCELLED ∨ status a = COMPLETED) ->
    reschedule_count a < 2 ->
    within_cutoff env a ->
    Served env rows seq (RescheduleCmd id body)
      (rolled_back rows seq [Query Client (SelectById id)]
         (AppError 400 CUTOFF_TIME_EXCEEDED))
| reschedule_slot_conflict id body a :
    rows !! id = Some a ->
    ¬ (status a = CANCELLED ∨ status a = COMPLETED) ->
    reschedule_count a < 2 ->
    ¬ within_cutoff env a ->
    conflicting rows (doctor_id a) (Reschedule.appointment_date body)
                (Reschedule.start_time body) (Reschedule.end_time body)
                (Some id) ->
    Served env rows seq (RescheduleCmd id body)
      (rolled_back rows seq
         [Query Client (SelectById id);
          Query Pool (reschedule_conflict_query a id body)]
         (AppError 409 SLOT_CONFLICT))
| reschedule_update_refused id body a :
    rows !! id = Some a ->
    ¬ (status a = CANCELLED ∨ status a = COMPLETED) ->
    reschedule_count a < 2 ->
    ¬ within_cutoff env a ->
    ¬ conflicting rows (doctor_id a) (Reschedule.appointment_date body)
                  (Reschedule.start_time body) (Reschedule.end_time body)
                  (Some id) ->
    Served env rows seq (RescheduleCmd id body)
      (rolled_back rows seq
         [Query Client (SelectById id);
          Query Pool (reschedule_conflict_query a id body);
          Query Client (reschedule_update id body)]
         (DatabaseError "42P18"))
| cancel_already_cancelled id why a :
    rows !! id = Some a ->
    status a = CANCELLED ->
    Served env rows seq (CancelCmd id why)
      (rolled_back rows seq [Query Client (SelectById id)]
         (AppError 400 ALREADY_CANCELLED))
| cancel_completed id why a :
    rows !! id = Some a ->
    status a = COMPLETED ->
    Served env rows seq (CancelCmd id why)
      (rolled_back rows seq [Query Client (SelectById id)]
         (AppError 400 INVALID_STATUS))
| cancel_accepted id why a :
    rows !! id = Some a ->
    status a ≠ CANCELLED ->
    status a ≠ COMPLETED ->
    Served env rows seq (CancelCmd id why)
      (committed (<[id := cancelled_row env why a]> rows) seq
         [Query Client (SelectById id); Query Client (UpdateCancel why id)]
         (best_effort (PostBillCancel id (refund_of env a))
                      (billingService env) "Failed to notify billing service"
          ++ best_effort (PostNotification CANCELLATION (patient_id a) id)
               (notificationService env) "Failed to send notification"
          ++ [LogInfo "Appointment cancelled"])
         200
         (mkPayload (Some (id, cancelled_row env why a))
                    (Some (refund_of env a))))
| complete_invalid_status id remarks a :
    rows !! id = Some a ->
    status a ≠ SCHEDULED ->
    Served env rows seq (CompleteCmd id remarks)
      (rolled_back rows seq [Query Client (SelectById id)]
         (AppError 400 INVALID_STATUS))
| complete_accepted id remarks a :
    rows !! id = Some a ->
    status a = SCHEDULED ->
    Served env rows seq (CompleteCmd id remarks)
      (committed (<[id := completed_row env remarks a]> rows) seq
         [Query Client (SelectById id);
          Query Client (UpdateComplete remarks id)]
         (best_effort (PostBill id (patient_id a) (doctor_id a) 500 false)
                      (billingService env) "Failed to generate bill"
          ++ [LogInfo "Appointment completed"])
         200 (mkPayload (Some (id, completed_row env remarks a)) None))
| no_show_invalid_status id a :
    rows !! id = Some a ->
    status a ≠ SCHEDULED ->
    Served env rows seq (NoShowCmd id)
      (rolled_back rows seq [Query Client (SelectById id)]
         (AppError 400 INVALID_STATUS))
| no_show_accepted id a :
    rows !! id = Some a ->
    status a = SCHEDULED ->
    Served env rows seq (NoShowCmd id)
      (committed (<[id := no_show_row env a]> rows) seq
         [Query Client (SelectById id); Query Client (UpdateNoShow id)]
         (best_effort (PostBill id (patient_id a) (doctor_id a) 100 true)
                      (billingService env) "Failed to generate no-show fee"
          ++ [LogInfo "Appointment marked as no-show"])
         200 (mkPayload (Some (id, no_show_row env a)) None)).

(** ** The first check that fails *)

(** The answer to a rejected lookup. *)
Definition lookup_error (notFound : ErrorCode) (st : option Z) : Error :=
  if decide (st = Some 404)
  then AppError 404 notFound
  else AppError 503 SERVICE_UNAVAILABLE.

(** The checks of each handler in the order of the source, with the
    error of the first one that fails; [None] when the handler reaches
    its [COMMIT]. *)
Definition first_failure (env : Env) (rows : gmap Z Appointment) (seq : Z)
    (c : Command) : option Error :=
  match c with
  | BookCmd body =>
      match patientService env (Book.patient_id body),
            doctorService env (Book.doctor_id body) with
      | Rejected st, _ => Some (lookup_error PATIENT_NOT_FOUND st)
      | _, Rejected st => Some (lookup_error DOCTOR_NOT_FOUND st)
      | _, _ =>
          if decide (conflicting rows (Book.doctor_id body)
                       (Book.appointment_date body) (Book.start_time body)
                       (Book.end_time body) None)
          then Some (AppError 409 SLOT_CONFLICT)
          else if decide (is_Some (rows !! seq)
                          ∨ unique_taken rows seq (booked_row env body))
          then Some UniqueViolation
          else None
      end
  | RescheduleCmd id body =>
      match rows !! id with
      | None => Some (AppError 404 APPOINTMENT_NOT_FOUND)
      | Some a =>
          if decide (status a = CANCELLED ∨ status a = COMPLETED)
          then Some (AppError 400 INVALID_STATUS)
          else if decide (2 ≤ reschedule_count a)
          then Some (AppError 400 MAX_RESCHEDULE_EXCEEDED)
          else if decide (within_cutoff env a)
          then Some (AppError 400 CUTOFF_TIME_EXCEEDED)
          else if decide (conflicting rows (doctor_id a)
                            (Reschedule.appointment_date body)
                            (Reschedule.start_time body)
                            (Reschedule.end_time body) (Some id))
          then Some (AppError 409 SLOT_CONFLICT)
          else Some (DatabaseError "42P18")
      end
  | CancelCmd id _ =>
      match rows !! id with
      | None => Some (AppError 404 APPOINTMENT_NOT_FOUND)
      | Some a =>
          if decide (status a = CANCELLED)
          then Some (AppError 400 ALREADY_CANCELLED)
          else if decide (status a = COMPLETED)
          then Some (AppError 400 INVALID_STATUS)
          else None
      end
  | CompleteCmd id _ | NoShowCmd id =>
      match rows !! id with
      | None => Some (AppError 404 APPOINTMENT_NOT_FOUND)
      | Some a =>
          if decide (status a = SCHEDULED)
          then None
          else Some (AppError 400 INVALID_STATUS)
      end
  end.

(** ** Observations used by the statements below *)

(** The command is refused with [e]: [next(e)] is the only reply and the
    committed table is the one the request found. *)
Definition rejects (env : Env) (rows : gmap Z Appointment) (seq : Z)
    (c : Command) (e : Error) : Prop :=
  replies (serve env c rows seq) = [Next e]
  ∧ table (serve env c rows seq) = rows.

(** What an accepted booking, cancel, complete or no-show does to
    [version], read off the reply [body] and the committed table of [w];
    nothing is said of a reschedule. *)
Definition version_effect (rows : gmap Z Appointment) (seq : Z) (c : Command)
    (w : World) (body : Payload) : Prop :=
  match c with
  | BookCmd _ =>
      ∃ r, data body = Some (seq, r) ∧ table w !! seq = Some r ∧ version r = 1
  | RescheduleCmd _ _ => True
  | CancelCmd id _ | CompleteCmd id _ | NoShowCmd id =>
      ∃ a r, rows !! id = Some a ∧ data body = Some (id, r)
             ∧ table w !! id = Some r ∧ version r = version a
  end.

(** The same surroundings with other answers from the billing and the
    notification service. *)
Definition with_collaborators (env : Env) (billing notification : AxiosResult)
    : Env :=
  mkEnv (now env) (now_again env) (CURRENT_TIMESTAMP env)
        (patientService env) (doctorService env) billing notification
        (dateAsText env).

(** The same surroundings with the driver as it comes, handing over a
    [Date] object for a [DATE] column, and with a driver set up to hand
    over the text. *)
Definition with_date_objects (env : Env) : Env :=
  mkEnv (now env) (now_again env) (CURRENT_TIMESTAMP env)
        (patientService env) (doctorService env) (billingService env)
        (notificationService env) false.

Definition with_date_text (env : Env) : Env :=
  mkEnv (now env) (now_again env) (CURRENT_TIMESTAMP env)
        (patientService env) (doctorService env) (billingService env)
        (notificationService env) true.

Definition is_rejected_post (e : Event) : bool :=
  match e with
  | Http (PostNotification _ _ _) (Rejected _)
  | Http (PostBillCancel _ _) (Rejected _)
  | Http (PostBill _ _ _ _ _) (Rejected _) => true
  | _ => false
  end.

Definition is_warning (e : Event) : bool :=
  match e with
  | LogWarn _ => true
  | _ => false
  end.

Definition is_conflict_query (q : Statement) : bool :=
  match q with
  | SelectConflict _ _ _ _ _ => true
  | _ => false
  end.

(** ** Sample data *)

(** The clock stands at midnight of day 19999; both services called after
    the commit are down; the driver is as it comes. *)
Definition sample_env : Env :=
  mkEnv (dateTime 19999 0) (dateTime 19999 0) (dateTime 19999 0)
        (fun _ => Fulfilled "patient") (fun _ => Fulfilled "doctor")
        (Rejected None) (Rejected (Some 500)) false.

(** Doctor 7, day 20000, 10:00 to 10:30, in status [s], rescheduled [n]
    times: 34 hours after the clock of [sample_env]. *)
Definition sample_row (s : Status) (n : Z) : Appointment :=
  mkAppointment 1 7 20000 600 630 s None None n 1 0 0.

(** The same slot booked with [end_time] equal to [start_time]: the
    validator and [bookAppointment] accept such a body. *)
Definition degenerate_row : Appointment :=
  mkAppointment 1 7 20000 600 600 SCHEDULED None None 0 1 0 0.

(** Doctor 7, day 19999, 00:30 to 01:00: half an hour after the clock of
    [sample_env]. *)
Definition imminent_row : Appointment :=
  mkAppointment 1 7 19999 30 60 SCHEDULED None None 0 1 0 0.

(** Doctor 7, day 19999, 07:00 to 07:30: seven hours after the clock of
    [sample_env]. *)
Definition same_day_row : Appointment :=
  mkAppointment 1 7 19999 420 450 SCHEDULED None None 0 1 0 0.

Definition sample_booking : Book.body :=
  Book.mk 1 7 20000 600 630 (Some "checkup") None.

(** The slot after [sample_booking]: 10:30 to 11:00. *)
Definition adjacent_booking : Book.body :=
  Book.mk 2 7 20000 630 660 None None.

Definition sample_reschedule : Reschedule.body :=
  Reschedule.mk 20001 540 570 (Some "moved").

(** The patient service answers 404. *)
Definition env_patient_unknown : Env :=
  mkEnv (dateTime 19999 0) (dateTime 19999 0) (dateTime 19999 0)
        (fun _ => Rejected (Some 404)) (fun _ => Fulfilled "doctor")
        (Fulfilled "") (Fulfilled "") false.

(** The doctor service answers 200 with a body that has no [data]. *)
Definition env_doctor_without_data : Env :=
  mkEnv (dateTime 19999 0) (dateTime 19999 0) (dateTime 19999 0)
        (fun _ => Fulfilled "patient") (fun _ => FulfilledWithoutData)
        (Fulfilled "") (Fulfilled "") false.

(** A booking for the very instant of the clock of [sample_env]. *)
Definition midnight_booking : Book.body :=
  Book.mk 1 7 19999 0 30 None None.

(** ** The read routes *)

(** [getAppointment]: one [pool.query], no transaction; an error goes to
    [next] without a rollback. *)
Definition getAppointment (env : Env) (id : Z) : Task unit :=
  try_catch
    (let* result := query env Pool (SelectById id) in
     match result with
     | [] => throw (AppError 404 APPOINTMENT_NOT_FOUND)
     | row :: _ => tell (ResJson 200 (mkPayload (Some row) None))
     end)
    (fun error => tell (Next error)).

(** The world after [GET /v1/appointments/:id]. *)
Definition fetch (env : Env) (id : Z) (rows : gmap Z Appointment) (seq : Z)
    : World :=
  (getAppointment env id (fresh rows seq)).1.

Module Search.
(** [req.query] of [getAppointments]; an absent parameter is [None]. *)
Record query := mk {
  patient_id : option Z;
  doctor_id : option Z;
  status : option Status;
  date : option Z;
  page : option Z;
  limit : option Z
}.

(** [{ data, pagination: { page, limit, totalCount, totalPages } }];
    [totalPages] is [None] where [Math.ceil] gives [Infinity] or [NaN],
    which JSON prints as [null]. *)
Record reply := mkReply {
  data : list Row;
  pageOut : Z;
  limitOut : Z;
  totalCount : Z;
  totalPages : option Z
}.
End Search.

(** [if (x)] on a number that may be absent: [undefined] and 0 are falsy. *)
Definition truthy (x : option Z) : bool :=
  match x with
  | Some v => negb (v =? 0)
  | None => false
  end.

(** The [WHERE] clause [getAppointments] assembles: one equality per
    truthy parameter, joined by [AND]; no clause when none is given. *)
Definition search_where (q : Search.query) (r : Appointment) : bool :=
  (if truthy (Search.patient_id q)
   then bool_decide (Some (patient_id r) = Search.patient_id q) else true)
  && (if truthy (Search.doctor_id q)
      then bool_decide (Some (doctor_id r) = Search.doctor_id q) else true)
  && match Search.status q with
     | Some s => bool_decide (status r = s)
     | None => true
     end
  && match Search.date q with
     | Some d => appointment_date r =? d
     | None => true
     end.

(** [ORDER BY appointment_date DESC, start_time DESC]: [x] may come
    before [y]. *)
Definition search_order (x y : Row) : Prop :=
  appointment_date y.2 < appointment_date x.2
  ∨ (appointment_date x.2 = appointment_date y.2
     ∧ start_time y.2 ≤ start_time x.2).

#[global] Instance search_order_dec x y : Decision (search_order x y).
Proof. unfold search_order. apply _. Defined.

(** [Math.ceil(a / b)] for a positive [b]. *)
Definition ceil_div (a b : Z) : Z := - ((- a) / b).

(** [getAppointments] as a function of the table: [None] when the
    database refuses a negative [LIMIT] or [OFFSET] and the error goes to
    [next].  Rows equal in date and start time come in the order of the
    scan, which the model takes from [map_to_list]. *)
Definition getAppointments (q : Search.query) (rows : gmap Z Appointment)
    : option Search.reply :=
  let page := default 1 (Search.page q) in
  let limit := default 10 (Search.limit q) in
  let offset := (page - 1) * limit in
  let matching :=
    List.filter (fun kr : Row => search_where q kr.2) (map_to_list rows) in
  let totalCount := Z.of_nat (length matching) in
  if (limit <? 0) || (offset <? 0)
  then None
  else Some (Search.mkReply
               (take (Z.to_nat limit)
                     (drop (Z.to_nat offset) (merge_sort search_order matching)))
               page limit totalCount
               (if limit =? 0 then None else Some (ceil_div totalCount limit))).

(** ** The seed loader *)

(** One data line of the seed file after [split(',')], its nine fields
    cast to the column types by the database. *)
Record SeedLine := mkSeedLine {
  seed_appointment_id : Z;
  seed_patient_id : Z;
  seed_doctor_id : Z;
  seed_appointment_date : Z;
  seed_start_time : Z;
  seed_end_time : Z;
  seed_status : Status;
  seed_reason : string;
  seed_created_at : Z
}.

(** The row the loader's [INSERT] makes: the columns it does not list
    ([notes], [reschedule_count], [version], [updated_at]) take their
    defaults. *)
Definition seed_row (env : Env) (l : SeedLine) : Appointment :=
  {| patient_id := seed_patient_id l;
     doctor_id := seed_doctor_id l;
     appointment_date := seed_appointment_date l;
     start_time := seed_start_time l;
     end_time := seed_end_time l;
     status := seed_status l;
     reason := Some (seed_reason l);
     notes := None;
     reschedule_count := 0;
     version := 1;
     created_at := seed_created_at l;
     updated_at := CURRENT_TIMESTAMP env |}.

(** [INSERT ... VALUES (appointment_id, ...) ON CONFLICT DO NOTHING]: the
    id is given, the sequence is not used, and a row that would violate
    the primary key or the [UNIQUE] constraint is skipped. *)
Definition seed_insert (env : Env) (rows : gmap Z Appointment) (l : SeedLine)
    : gmap Z Appointment :=
  if decide (is_Some (rows !! seed_appointment_id l)
             ∨ unique_taken rows (seed_appointment_id l) (seed_row env l))
  then rows
  else <[seed_appointment_id l := seed_row env l]> rows.

(** The loop of [loadSeedData] over the data lines. *)
Definition loadSeedData (env : Env) (lines : list SeedLine)
    (rows : gmap Z Appointment) : gmap Z Appointment :=
  foldl (seed_insert env) rows lines.

(** A seed line with id 1: doctor 9, day 20000, 15:00 to 15:30. *)
Definition sample_seed : SeedLine :=
  mkSeedLine 1 5 9 20000 900 930 SCHEDULED "seeded" 0.

(** First page of ten of the appointments of doctor 7. *)
Definition sample_search : Search.query :=
  Search.mk None (Some 7) None None (Some 1) (Some 10).

(** ** Invariants of the table *)

(** The [UNIQUE(doctor_id, appointment_date, start_time)] constraint. *)
Definition unique_slots (rows : gmap Z Appointment) : Prop :=
  ∀ i j x y,
    rows !! i = Some x → rows !! j = Some y → i ≠ j →
    ¬ (doctor_id x = doctor_id y
       ∧ appointment_date x = appointment_date y
       ∧ start_time x = start_time y).

(** An appointment the conflict query looks at. *)
Definition active (r : Appointment) : Prop :=
  status r ≠ CANCELLED ∧ status r ≠ COMPLETED.

(** Same doctor, same day, intervals that meet. *)
Definition overlapping (x y : Appointment) : Prop :=
  doctor_id x = doctor_id y
  ∧ appointment_date x = appointment_date y
  ∧ start_time x < end_time y
  ∧ start_time y < end_time x.

Definition no_double_booking (rows : gmap Z Appointment) : Prop :=
  ∀ i j x y,
    rows !! i = Some x → rows !! j = Some y → i ≠ j →
    active x → active y → ¬ overlapping x y.

(** Every id in use is below the next value of the sequence. *)
Definition ids_below (rows : gmap Z Appointment) (seq : Z) : Prop :=
  ∀ i, is_Some (rows !! i) → i < seq.

(** [t] continues [s]. *)
Definition extends (s t : string) : Prop := ∃ u, t = s +:+ u.

(** A request to the billing or the notification service. *)
Definition is_post (e : Event) : bool :=
  match e with
  | Http (PostNotification _ _ _) _
  | Http (PostBillCancel _ _) _
  | Http (PostBill _ _ _ _ _) _ => true
  | _ => false
  end.

(** A request to the patient or the doctor service. *)
Definition is_lookup (e : Event) : bool :=
  match e with
  | Http (GetPatient _) _ | Http (GetDoctor _) _ => true
  | _ => false
  end.

(** * Properties *)

(** ** The conflict query *)

Lemma status_not_in_iff s :
  status_not_in_cancelled_completed s = true ↔ s ≠ CANCELLED ∧ s ≠ COMPLETED.
Proof.
  destruct s; simpl; split; try discriminate; try (intros [? ?]; congruence);
    intros _; split; discriminate.
Qed.

Lemma exclude_iff (ex : option Z) id :
  match ex with Some x => negb (id =? x) | None => true end = true
  ↔ ∀ x, ex = Some x → id ≠ x.
Proof.
  destruct ex as [x|]; simpl.
  - rewrite negb_true_iff, Z.eqb_neq. split.
    + intros Hne y [= <-]. exact Hne.
    + intros H. by apply H.
  - split; [intros _ x; discriminate | reflexivity].
Qed.

(** The clause as the queries write it. *)
Lemma conflict_where_iff d dt s e ex id r :
  conflict_where d dt s e ex id r = true ↔
    doctor_id r = d ∧ appointment_date r = dt
    ∧ status r ≠ CANCELLED ∧ status r ≠ COMPLETED
    ∧ (∀ x, ex = Some x → id ≠ x)
    ∧ (start_time r < e ∧ s < end_time r ∨ s ≤ start_time r < e).
Proof.
  unfold conflict_where.
  rewrite !andb_true_iff, orb_true_iff, !andb_true_iff.
  rewrite status_not_in_iff, exclude_iff.
  rewrite !Z.eqb_eq, !Z.ltb_lt, Z.gtb_gt, Z.geb_ge.
  split.
  - intros [[[[Hd Hdt] [Hc1 Hc2]] Hex] Hov].
    repeat (split; [assumption|]). lia.
  - intros (Hd & Hdt & Hc1 & Hc2 & Hex & Hov).
    repeat split; try assumption. lia.
Qed.

(** The pool runs the query on the committed table; the answer says
    whether some row satisfies the clause. *)
Lemma checkSlotConflict_run env d dt s e ex w :
  checkSlotConflict env d dt s e ex w =
    (emit (Query Pool (SelectConflict d dt s e ex)) w,
     Return (bool_decide (conflicting (table w) d dt s e ex))).
Proof.
  unfold checkSlotConflict, bind, query, ret, execute, conflicting.
  do 2 f_equal. apply bool_decide_ext.
  change (visible Pool (emit (Query Pool (SelectConflict d dt s e ex)) w))
    with (table w).
  rewrite length_map_to_list.
  split.
  - intros Hpos.
    destruct (map_size_ne_0_lookup_1
                (filter (fun kr : Z * Appointment =>
                           conflict_where d dt s e ex kr.1 kr.2 = true)
                        (table w))) as [id [r Hr]]; [lia|].
    apply map_lookup_filter_Some in Hr as [Hr HP]. by exists id, r.
  - intros (id & r & Hr & HP).
    assert (size (filter (fun kr : Z * Appointment =>
                            conflict_where d dt s e ex kr.1 kr.2 = true)
                         (table w)) ≠ 0%nat); [|lia].
    apply (map_size_ne_0_lookup_2 _ id).
    exists r. by apply map_lookup_filter_Some.
Qed.

Lemma hasConflict_iff_where env w d dt s e ex :
  hasConflict env w d dt s e ex = Return true ↔
    ∃ id r, table w !! id = Some r ∧ conflict_where d dt s e ex id r = true.
Proof.
  unfold hasConflict. rewrite checkSlotConflict_run. simpl.
  split.
  - intros [= H]. by apply bool_decide_eq_true in H.
  - intros H. f_equal. by apply bool_decide_eq_true.
Qed.

(** The query goes through the pool, so it reads the committed table and
    nothing of what the client's open transaction has written. *)
Lemma hasConflict_ignores_transaction env rows seq pending tr d dt s e ex :
  hasConflict env (mkWorld rows seq pending tr) d dt s e ex
  = hasConflict env (mkWorld rows seq None tr) d dt s e ex.
Proof. unfold hasConflict. by rewrite !checkSlotConflict_run. Qed.

(** ** Dates and numbers *)

Lemma Qlt_bool_true x y : Qlt_bool x y = true ↔ (x < y)%Q.
Proof.
  unfold Qlt_bool. rewrite negb_true_iff, <- not_true_iff_false, Qle_bool_iff.
  split; [apply Qnot_le_lt | apply Qlt_not_le].
Qed.

Lemma Qge_bool_true x y : Qge_bool x y = true ↔ (y <= x)%Q.
Proof. apply Qle_bool_iff. Qed.

(** In milliseconds: [k] hours are [k * 3600000]. *)
Lemma hoursDiff_ge k t n :
  (inject_Z k <= hoursDiff t n)%Q ↔ k * 3600000 ≤ t - n.
Proof.
  unfold hoursDiff, Qle, Qdiv, Qmult, Qinv, inject_Z; simpl. lia.
Qed.

Lemma hoursDiff_lt k t n :
  (hoursDiff t n < inject_Z k)%Q ↔ t - n < k * 3600000.
Proof.
  unfold hoursDiff, Qlt, Qdiv, Qmult, Qinv, inject_Z; simpl. lia.
Qed.

(** The tests on a valid [Date], in milliseconds. *)
Lemma number_ltb_hours k t n :
  number_ltb (hoursBetween (Some t) n) (inject_Z k) = true
  ↔ t - n < k * 3600000.
Proof. simpl. by rewrite Qlt_bool_true, hoursDiff_lt. Qed.

Lemma number_geb_hours k t n :
  number_geb (hoursBetween (Some t) n) (inject_Z k) = true
  ↔ k * 3600000 ≤ t - n.
Proof. simpl. by rewrite Qge_bool_true, hoursDiff_ge. Qed.

(** The test [hoursDiff < 1] of [rescheduleAppointment]. *)
Lemma cutoff_test env a :
  number_ltb (hoursBetween (stored_dateTime env a) (now env)) (inject_Z 1)
  = true
  ↔ within_cutoff env a.
Proof.
  unfold within_cutoff. destruct (stored_dateTime env a) as [t|].
  - rewrite number_ltb_hours. lia.
  - simpl. split; [discriminate|tauto].
Qed.

(** The cascade of [cancelAppointment] on a valid [Date], in
    milliseconds: 24 hours are 86400000, 6 hours are 21600000. *)
Lemma refund_policy_of_timestamp t n :
  refund_policy_of (hoursBetween (Some t) n)
  = if decide (86400000 ≤ t - n) then FULL_REFUND
    else if decide (21600000 ≤ t - n) then PARTIAL_REFUND
    else CANCELLATION_FEE.
Proof.
  unfold refund_policy_of.
  destruct (number_geb _ (inject_Z 24)) eqn:H24.
  { apply number_geb_hours in H24. by rewrite decide_True by lia. }
  assert (¬ 24 * 3600000 ≤ t - n) as N24.
  { rewrite <- number_geb_hours, H24. discriminate. }
  rewrite decide_False by lia.
  destruct (number_geb _ (inject_Z 6)) eqn:H6.
  { apply number_geb_hours in H6. by rewrite decide_True by lia. }
  assert (¬ 6 * 3600000 ≤ t - n) as N6.
  { rewrite <- number_geb_hours, H6. discriminate. }
  by rewrite decide_False by lia.
Qed.

(** On an Invalid Date both comparisons are false and the [else] branch
    is taken. *)
Lemma refund_policy_of_NaN n :
  refund_policy_of (hoursBetween None n) = CANCELLATION_FEE.
Proof. reflexivity. Qed.

(** What the driver hands over decides whether a stored date can be
    read. *)
Lemma stored_dateTime_text env a :
  dateAsText env = true →
  stored_dateTime env a = Some (dateTime (appointment_date a) (start_time a)).
Proof. unfold stored_dateTime, column_date. by intros ->. Qed.

Lemma stored_dateTime_object env a :
  dateAsText env = false → stored_dateTime env a = None.
Proof. unfold stored_dateTime, column_date. by intros ->. Qed.

(** ** Transactions of the store *)

(** Inside an open transaction no statement but [COMMIT] touches the
    committed table, and [ROLLBACK] then forgets what was written. *)
Lemma rollback_discards env q w pending :
  txn w = Some pending →
  q ≠ COMMIT →
  table (execute env Client q w).1 = table w
  ∧ table (execute env Client ROLLBACK (execute env Client q w).1).1 = table w
  ∧ txn (execute env Client ROLLBACK (execute env Client q w).1).1 = None.
Proof.
  intros Hopen Hq.
  destruct q; try done; simpl;
    unfold update_where_id, visible, store; rewrite ?Hopen; simpl;
    repeat match goal with
           | |- context [match ?x !! ?i with _ => _ end] => destruct (x !! i)
           | |- context [if ?b then _ else _] => destruct b
           end; simpl; rewrite ?Hopen; done.
Qed.

(** ** Every request takes one of the paths *)

Arguments checkSlotConflict : simpl never.
Arguments number_ltb : simpl never.
Arguments refund_policy_of : simpl never.

(** Run a handler symbolically up to its first undecided test. *)
Ltac exec :=
  unfold serve, handler, fresh, bookAppointment, rescheduleAppointment,
    cancelAppointment, completeAppointment, markNoShow, notifyBilling,
    sendNotification, validatePatient, validateDoctor, axios, try_finally,
    try_catch, bind, ret, throw, tell, query, execute, update_where_id,
    emit, visible, store;
  cbn.

Lemma serve_cancel env rows seq id why :
  Served env rows seq (CancelCmd id why) (serve env (CancelCmd id why) rows seq).
Proof.
  destruct (rows !! id) as [a|] eqn:Hid.
  2:{ exec. rewrite Hid; cbn.
      by apply (appointment_not_found env rows seq (CancelCmd id why) id). }
  exec. rewrite Hid; cbn.
  destruct (decide _) as [Hc|Hc]; [by eapply cancel_already_cancelled|].
  destruct (decide _) as [Hd|Hd]; [by eapply cancel_completed|].
  cbn. rewrite Hid. cbn.
  pose proof (cancel_accepted env rows seq id why a Hid Hc Hd) as P.
  destruct (billingService env), (notificationService env); exact P.
Qed.

Lemma serve_complete env rows seq id remarks :
  Served env rows seq (CompleteCmd id remarks)
         (serve env (CompleteCmd id remarks) rows seq).
Proof.
  destruct (rows !! id) as [a|] eqn:Hid.
  2:{ exec. rewrite Hid; cbn.
      by apply (appointment_not_found env rows seq (CompleteCmd id remarks) id). }
  exec. rewrite Hid; cbn.
  destruct (decide _) as [Hs|Hs]; [by eapply complete_invalid_status|].
  assert (status a = SCHEDULED) as Hs' by (by apply dec_stable).
  cbn. rewrite Hid. cbn.
  pose proof (complete_accepted env rows seq id remarks a Hid Hs') as P.
  destruct (billingService env); exact P.
Qed.

Lemma serve_no_show env rows seq id :
  Served env rows seq (NoShowCmd id) (serve env (NoShowCmd id) rows seq).
Proof.
  destruct (rows !! id) as [a|] eqn:Hid.
  2:{ exec. rewrite Hid; cbn.
      by apply (appointment_not_found env rows seq (NoShowCmd id) id). }
  exec. rewrite Hid; cbn.
  destruct (decide _) as [Hs|Hs]; [by eapply no_show_invalid_status|].
  assert (status a = SCHEDULED) as Hs' by (by apply dec_stable).
  cbn. rewrite Hid. cbn.
  pose proof (no_show_accepted env rows seq id a Hid Hs') as P.
  destruct (billingService env); exact P.
Qed.

Lemma serve_reschedule env rows seq id body :
  Served env rows seq (RescheduleCmd id body)
         (serve env (RescheduleCmd id body) rows seq).
Proof.
  destruct (rows !! id) as [a|] eqn:Hid.
  2:{ exec. rewrite Hid; cbn.
      by apply (appointment_not_found env rows seq (RescheduleCmd id body) id). }
  exec. rewrite Hid; cbn.
  destruct (decide _) as [Hs|Hs]; [by eapply reschedule_invalid_status|].
  destruct (reschedule_count a >=? 2) eqn:Hn.
  { apply Z.geb_le in Hn. by eapply reschedule_max_exceeded. }
  assert (reschedule_count a < 2) as Hn' by (rewrite Z.geb_leb in Hn; lia).
  change (newDate (column_date env (appointment_date a)) (start_time a))
    with (stored_dateTime env a).
  destruct (number_ltb _ _) eqn:Hq.
  { apply cutoff_test in Hq. by eapply reschedule_cutoff_exceeded. }
  assert (¬ within_cutoff env a) as Hq'.
  { rewrite <- cutoff_test, Hq. discriminate. }
  rewrite checkSlotConflict_run; cbn.
  case_bool_decide as Hc; cbn.
  { by eapply reschedule_slot_conflict. }
  by eapply reschedule_update_refused.
Qed.

Lemma serve_book env rows seq body :
  Served env rows seq (BookCmd body) (serve env (BookCmd body) rows seq).
Proof.
  exec.
  destruct (patientService env _) as [patient| |st] eqn:Hp; cbn.
  3:{ pose proof (book_patient_rejected env rows seq body st Hp) as P.
      unfold lookup_failure in P; cbn in P.
      destruct st as [st|]; [destruct (st =? 404)|]; exact P. }
  all: assert (fulfilled (patientService env (Book.patient_id body))) as Fp
    by (intros st; rewrite Hp; discriminate).
  all: destruct (doctorService env _) as [doctor| |st] eqn:Hdoc; cbn.
  all: try (pose proof (book_doctor_rejected env rows seq body st Fp Hdoc) as P;
            unfold lookup_failure in P; cbn in P; rewrite Hp in P;
            destruct st as [st|]; [destruct (st =? 404)|]; exact P).
  all: assert (fulfilled (doctorService env (Book.doctor_id body))) as Fd
    by (intros st; rewrite Hdoc; discriminate).
  all: rewrite checkSlotConflict_run; cbn.
  all: case_bool_decide as Hc; cbn.
  all: try (pose proof (book_slot_conflict env rows seq body Fp Fd Hc) as P;
            unfold book_lookups in P; rewrite Hp, Hdoc in P; exact P).
  all: destruct (decide _) as [Hu|Hu]; cbn.
  all: try (pose proof (book_unique_violation env rows seq body Fp Fd Hc Hu)
              as P;
            unfold book_lookups in P; rewrite Hp, Hdoc in P; exact P).
  - pose proof (book_accepted env rows seq body doctor Fp Hdoc Hc Hu) as P.
    unfold book_lookups in P; rewrite Hp, Hdoc in P.
    destruct (notificationService env); exact P.
  - pose proof (book_doctor_without_data env rows seq body Fp Hdoc Hc Hu) as P.
    unfold book_lookups in P; rewrite Hp, Hdoc in P. exact P.
  - pose proof (book_accepted env rows seq body doctor Fp Hdoc Hc Hu) as P.
    unfold book_lookups in P; rewrite Hp, Hdoc in P.
    destruct (notificationService env); exact P.
  - pose proof (book_doctor_without_data env rows seq body Fp Hdoc Hc Hu) as P.
    unfold book_lookups in P; rewrite Hp, Hdoc in P. exact P.
Qed.

(** The handlers are total, and their run is one of the listed paths. *)
Lemma serve_Served env rows seq c :
  Served env rows seq c (serve env c rows seq).
Proof.
  destruct c; auto using serve_book, serve_reschedule, serve_cancel,
    serve_complete, serve_no_show.
Qed.

(** Two premises that cannot both hold. *)
Ltac clash :=
  exfalso;
  first
    [ congruence
    | lia
    | tauto
    | match goal with
      | H1 : fulfilled ?x, H2 : ?x = Rejected _ |- _ => exact (H1 _ H2)
      end ].

(** The paths exclude one another: the world a request leaves is unique. *)
Lemma Served_functional env rows seq c w1 w2 :
  Served env rows seq c w1 → Served env rows seq c w2 → w1 = w2.
Proof.
  intros S1 S2.
  destruct S1; inversion S2; simplify_eq/=; try reflexivity; try clash.
  all: try (repeat match goal with
                   | H1 : ?x = Rejected _, H2 : ?x = Rejected _ |- _ =>
                       rewrite H1 in H2; simplify_eq
                   end; reflexivity).
Qed.

Lemma Served_serve env rows seq c w :
  Served env rows seq c w → serve env c rows seq = w.
Proof. intros S. eapply Served_functional; [apply serve_Served | exact S]. Qed.

(** [first_failure] names the path a request takes: the error of a
    request that is rolled back, and none for one that reaches its
    [COMMIT]. *)
Lemma lookup_failure_error notFound st :
  lookup_failure notFound st = lookup_error notFound st.
Proof.
  unfold lookup_failure, lookup_error, response_status_is_404.
  destruct st as [st|].
  - destruct (Z.eqb_spec st 404) as [->|Hne], (decide _) as [Heq|Hneq];
      try reflexivity; exfalso.
    + by apply Hneq.
    + injection Heq as ->. by apply Hne.
  - destruct (decide _) as [Heq|Hneq]; [discriminate Heq|reflexivity].
Qed.

Lemma fulfilled_cases (result : AxiosResult) :
  fulfilled result →
  (∃ name, result = Fulfilled name) ∨ result = FulfilledWithoutData.
Proof.
  intros F. destruct result as [name| |st]; eauto.
  exfalso. by apply (F st).
Qed.

(** ** Reading a trace *)

Lemma replies_rolled_back rows seq steps e :
  replies (rolled_back rows seq steps e)
  = List.filter is_reply steps ++ [Next e].
Proof.
  unfold replies, rolled_back; simpl. by rewrite List.filter_app.
Qed.

Lemma replies_committed rows seq steps after st p :
  replies (committed rows seq steps after st p) =
    List.filter is_reply steps ++ List.filter is_reply after ++ [ResJson st p].
Proof.
  unfold replies, committed; simpl. rewrite List.filter_app. simpl.
  by rewrite List.filter_app.
Qed.

Lemma replies_failed_after_commit rows seq steps e :
  replies (failed_after_commit rows seq steps e)
  = List.filter is_reply steps ++ [Next e].
Proof.
  unfold replies, failed_after_commit; simpl. by rewrite List.filter_app.
Qed.

Lemma best_effort_no_reply r x msg rest :
  List.filter is_reply (best_effort r x msg ++ rest)
  = List.filter is_reply rest.
Proof. by destruct x. Qed.

Lemma best_effort_no_statement r x msg :
  omap (fun e => match e with Query h q => Some (h, q) | _ => None end)
       (best_effort r x msg) = [].
Proof. by destruct x. Qed.

Lemma statements_rolled_back rows seq steps e :
  statements (rolled_back rows seq steps e) =
    (Client, BEGIN)
    :: omap (fun e => match e with Query h q => Some (h, q) | _ => None end)
            steps
    ++ [(Client, ROLLBACK)].
Proof. unfold statements, rolled_back; simpl. by rewrite omap_app. Qed.

Lemma statements_committed rows seq steps after st p :
  statements (committed rows seq steps after st p) =
    (Client, BEGIN)
    :: omap (fun e => match e with Query h q => Some (h, q) | _ => None end)
            steps
    ++ (Client, COMMIT)
    :: omap (fun e => match e with Query h q => Some (h, q) | _ => None end)
            after.
Proof.
  unfold statements, committed; simpl. rewrite omap_app. simpl.
  rewrite omap_app. simpl. by rewrite app_nil_r.
Qed.

Lemma statements_failed_after_commit rows seq steps e :
  statements (failed_after_commit rows seq steps e) =
    (Client, BEGIN)
    :: omap (fun e => match e with Query h q => Some (h, q) | _ => None end)
            steps
    ++ [(Client, COMMIT); (Client, ROLLBACK)].
Proof. unfold statements, failed_after_commit; simpl. by rewrite omap_app. Qed.

(** Bring the replies and the statements of a path into the open. *)
Ltac observe :=
  rewrite ?replies_rolled_back, ?replies_committed,
    ?replies_failed_after_commit, ?statements_rolled_back,
    ?statements_committed, ?statements_failed_after_commit;
  unfold book_lookups;
  rewrite ?omap_app, ?best_effort_no_reply, ?best_effort_no_statement;
  simpl;
  rewrite ?best_effort_no_reply, ?best_effort_no_statement;
  simpl.

(** An element is not in an explicit list. *)
Ltac not_in :=
  let H := fresh in
  simpl; intros H; repeat (destruct H as [H|H]; [discriminate H|]); exact H.

(** Every request is answered exactly once. *)
Lemma Served_replies env rows seq c w :
  Served env rows seq c w →
  (∃ e, replies w = [Next e]) ∨ (∃ st p, replies w = [ResJson st p]).
Proof. destruct 1; observe; eauto. Qed.

(** The conflict query is the one statement that runs on the pool. *)
Lemma conflict_query_on_pool env c rows seq h q :
  In (h, q) (statements (serve env c rows seq)) →
  (is_conflict_query q = true ↔ h = Pool).
Proof.
  generalize (serve_Served env rows seq c).
  generalize (serve env c rows seq). intros w S.
  destruct S; observe; intros Hin;
    repeat (destruct Hin as [Hin|Hin]; [injection Hin as <- <-; by split|]);
    destruct Hin.
Qed.

(** The answers of the billing and notification services select no path. *)
Lemma collaborators_irrelevant env rows seq c b n b' n' w :
  Served (with_collaborators env b n) rows seq c w →
  ∃ w', Served (with_collaborators env b' n') rows seq c w'
        ∧ table w = table w' ∧ sequence w = sequence w'
        ∧ replies w = replies w' ∧ statements w = statements w'.
Proof.
  destruct 1;
    (eexists; split; [econstructor; eassumption|]);
    observe; repeat split; reflexivity.
Qed.

(** One warning is logged per rejected post-commit request. *)
Lemma Served_warnings env rows seq c w :
  Served env rows seq c w →
  length (List.filter is_warning (trace w))
  = length (List.filter is_rejected_post (trace w)).
Proof.
  destruct 1;
    unfold rolled_back, committed, failed_after_commit, best_effort,
      book_lookups; simpl;
    try reflexivity;
    repeat match goal with
           | |- context [match ?x with Rejected _ => _ | _ => _ end] =>
               destruct x
           end; reflexivity.
Qed.

(** * The claims *)

(** ** C1: commands on an appointment in a terminal status *)

(** C1, as the code has it.  For an appointment whose status is terminal
    (COMPLETED, CANCELLED or NO_SHOW): complete and no-show fail with
    INVALID_STATUS; reschedule fails with INVALID_STATUS when the status
    is CANCELLED or COMPLETED; cancel fails with INVALID_STATUS when the
    status is COMPLETED, and with ALREADY_CANCELLED when it is CANCELLED.
    Each failure is HTTP 400 and leaves the table as it was. *)
Theorem terminal_transitions_rejected env rows seq id a :
  rows !! id = Some a →
  status a ≠ SCHEDULED →
  (∀ remarks, rejects env rows seq (CompleteCmd id remarks)
                      (AppError 400 INVALID_STATUS))
  ∧ rejects env rows seq (NoShowCmd id) (AppError 400 INVALID_STATUS)
  ∧ (status a ≠ NO_SHOW →
     ∀ body, rejects env rows seq (RescheduleCmd id body)
                     (AppError 400 INVALID_STATUS))
  ∧ (status a = COMPLETED →
     ∀ why, rejects env rows seq (CancelCmd id why)
                    (AppError 400 INVALID_STATUS))
  ∧ (status a = CANCELLED →
     ∀ why, rejects env rows seq (CancelCmd id why)
                    (AppError 400 ALREADY_CANCELLED)).
Proof.
  intros Hid Hs. unfold rejects.
  split; [|split; [|split; [|split]]].
  - intros remarks.
    by rewrite (Served_serve _ _ _ _ _
                  (complete_invalid_status env rows seq id remarks a Hid Hs)).
  - by rewrite (Served_serve _ _ _ _ _
                  (no_show_invalid_status env rows seq id a Hid Hs)).
  - intros Hn body.
    assert (status a = CANCELLED ∨ status a = COMPLETED) as Hcc.
    { destruct (status a); auto; congruence. }
    by rewrite (Served_serve _ _ _ _ _
                  (reschedule_invalid_status env rows seq id body a Hid Hcc)).
  - intros Hc why.
    by rewrite (Served_serve _ _ _ _ _
                  (cancel_completed env rows seq id why a Hid Hc)).
  - intros Hc why.
    by rewrite (Served_serve _ _ _ _ _
                  (cancel_already_cancelled env rows seq id why a Hid Hc)).
Qed.

(** A COMPLETED appointment cannot be marked as no-show. *)
Lemma terminal_transitions_rejected_witness :
  ({[1 := sample_row COMPLETED 0]} : gmap Z Appointment) !! 1
  = Some (sample_row COMPLETED 0)
  ∧ rejects sample_env {[1 := sample_row COMPLETED 0]} 2 (NoShowCmd 1)
            (AppError 400 INVALID_STATUS).
Proof.
  split; [reflexivity|].
  apply (terminal_transitions_rejected sample_env
           {[1 := sample_row COMPLETED 0]} 2 1 (sample_row COMPLETED 0));
    [reflexivity|discriminate].
Defined.

(** C1 as stated fails: a second cancel is answered ALREADY_CANCELLED,
    not INVALID_STATUS; a cancel of a NO_SHOW appointment is accepted; and
    a reschedule of a NO_SHOW appointment is not answered INVALID_STATUS
    either. *)
Lemma terminal_commands_not_all_invalid_status :
  replies (serve sample_env (CancelCmd 1 None)
                 {[1 := sample_row CANCELLED 0]} 2)
  = [Next (AppError 400 ALREADY_CANCELLED)]
  ∧ replies (serve sample_env (CancelCmd 1 None)
                   {[1 := sample_row CANCELLED 0]} 2)
    ≠ [Next (AppError 400 INVALID_STATUS)]
  ∧ (∃ body,
       replies (serve sample_env (CancelCmd 1 None)
                      {[1 := sample_row NO_SHOW 0]} 2)
       = [ResJson 200 body])
  ∧ replies (serve sample_env (RescheduleCmd 1 sample_reschedule)
                   {[1 := sample_row NO_SHOW 0]} 2)
    ≠ [Next (AppError 400 INVALID_STATUS)].
Proof.
  split; [by vm_compute|]. split; [by vm_compute|].
  split; [eexists; by vm_compute|by vm_compute].
Qed.

(** ** C2: the version counter *)

(** C2, as the code has it.  A booking is stored with version 1; an
    accepted cancel, complete or no-show stores the appointment with its
    version unchanged. *)
Theorem version_on_accepted_commands env c rows seq httpStatus body :
  replies (serve env c rows seq) = [ResJson httpStatus body] →
  version_effect rows seq c (serve env c rows seq) body.
Proof.
  generalize (serve_Served env rows seq c).
  generalize (serve env c rows seq) as w. intros w S.
  destruct S; observe; intros [= <- <-]; simpl.
  - eexists; split; [reflexivity|]. split; [apply lookup_insert_eq|reflexivity].
  - eexists _, _; split; [eassumption|]. split; [reflexivity|].
    split; [apply lookup_insert_eq|reflexivity].
  - eexists _, _; split; [eassumption|]. split; [reflexivity|].
    split; [apply lookup_insert_eq|reflexivity].
  - eexists _, _; split; [eassumption|]. split; [reflexivity|].
    split; [apply lookup_insert_eq|reflexivity].
Qed.

(** The first booking on an empty table is stored at version 1. *)
Lemma version_on_accepted_commands_witness :
  version_effect ∅ 1 (BookCmd sample_booking)
    (serve sample_env (BookCmd sample_booking) ∅ 1)
    (mkPayload (Some (1, booked_row sample_env sample_booking)) None).
Proof.
  apply (version_on_accepted_commands sample_env (BookCmd sample_booking)
           ∅ 1 201).
  vm_compute. reflexivity.
Defined.

(** C2 as stated fails: an accepted cancel leaves version 1 at 1. *)
Lemma accepted_cancel_keeps_version :
  (∃ body,
     replies (serve sample_env (CancelCmd 1 None)
                    {[1 := sample_row SCHEDULED 0]} 2)
     = [ResJson 200 body])
  ∧ version <$> ({[1 := sample_row SCHEDULED 0]} : gmap Z Appointment) !! 1
    = Some 1
  ∧ version <$> table (serve sample_env (CancelCmd 1 None)
                             {[1 := sample_row SCHEDULED 0]} 2) !! 1
    = Some 1.
Proof. split; [eexists; by vm_compute|]. split; by vm_compute. Qed.

(** ** C3: what [checkSlotConflict] answers *)

(** C3, as the code has it.  [checkSlotConflict] always answers, and it
    answers true exactly when some stored appointment of the same doctor
    and date, with status neither CANCELLED nor COMPLETED (NO_SHOW still
    blocks), other than the excluded one, satisfies
    [s1 < endTime AND startTime < e1], or [startTime <= s1 < endTime].
    When every stored appointment has [s1 < e1] the second alternative
    adds nothing and the answer is the half-open overlap rule, under
    which intervals that share only an endpoint do not conflict. *)
Theorem hasConflict_characterisation
    env w doctorId appointmentDate startTime endTime exclude :
  (hasConflict env w doctorId appointmentDate startTime endTime exclude
     = Return true
   ∨ hasConflict env w doctorId appointmentDate startTime endTime exclude
     = Return false)
  ∧ (hasConflict env w doctorId appointmentDate startTime endTime exclude
       = Return true
     ↔ ∃ id r,
         table w !! id = Some r
         ∧ doctor_id r = doctorId
         ∧ appointment_date r = appointmentDate
         ∧ status r ≠ CANCELLED ∧ status r ≠ COMPLETED
         ∧ (∀ x, exclude = Some x → id ≠ x)
         ∧ (start_time r < endTime ∧ startTime < end_time r
            ∨ startTime ≤ start_time r < endTime))
  ∧ (map_Forall (fun _ r => start_time r < end_time r) (table w) →
     hasConflict env w doctorId appointmentDate startTime endTime exclude
       = Return true
     ↔ half_open_conflict (table w) doctorId appointmentDate startTime endTime
                          exclude).
Proof.
  split; [|split].
  - unfold hasConflict. rewrite checkSlotConflict_run. simpl.
    destruct (bool_decide _); auto.
  - rewrite hasConflict_iff_where.
    split; intros (id & r & Hr & Hw); exists id, r; (split; [exact Hr|]);
      by apply conflict_where_iff.
  - intros Hwf. rewrite hasConflict_iff_where. unfold half_open_conflict.
    split.
    + intros (id & r & Hr & Hw). exists id, r.
      apply conflict_where_iff in Hw
        as (Hd & Hdt & Hc1 & Hc2 & Hex & Hov).
      pose proof (Hwf id r Hr) as Hlt. simpl in Hlt.
      repeat (split; [assumption|]). lia.
    + intros (id & r & Hr & Hd & Hdt & Hc1 & Hc2 & Hex & Hs & He).
      exists id, r. split; [exact Hr|].
      apply conflict_where_iff. repeat (split; [assumption|]). lia.
Qed.

(** 10:00 to 10:30 is stored; the candidate 10:30 to 11:00 is adjacent. *)
Lemma hasConflict_characterisation_witness :
  map_Forall (fun _ r => start_time r < end_time r)
             (table (fresh {[1 := sample_row SCHEDULED 0]} 2))
  ∧ (hasConflict sample_env (fresh {[1 := sample_row SCHEDULED 0]} 2)
                 7 20000 630 660 None = Return true
     ↔ half_open_conflict (table (fresh {[1 := sample_row SCHEDULED 0]} 2))
                          7 20000 630 660 None).
Proof.
  assert (map_Forall (fun _ r => start_time r < end_time r)
                     (table (fresh {[1 := sample_row SCHEDULED 0]} 2))) as Hwf.
  { apply map_Forall_singleton. simpl. lia. }
  split; [exact Hwf|].
  exact (proj2 (proj2 (hasConflict_characterisation sample_env
                         (fresh {[1 := sample_row SCHEDULED 0]} 2)
                         7 20000 630 660 None)) Hwf).
Defined.

(** C3 as stated fails: a stored appointment 10:00 to 10:00 does not
    overlap the candidate 10:00 to 10:30 by the half-open rule
    ([startTime < e1] is [600 < 600]), yet the query reports a conflict. *)
Lemma degenerate_row_blocks_slot :
  hasConflict sample_env (fresh {[1 := degenerate_row]} 2) 7 20000 600 630 None
  = Return true
  ∧ ¬ half_open_conflict {[1 := degenerate_row]} 7 20000 600 630 None.
Proof.
  split.
  - apply hasConflict_iff_where. exists 1, degenerate_row.
    split; reflexivity.
  - intros (id & r & Hr & _ & _ & _ & _ & _ & _ & He).
    apply lookup_singleton_Some in Hr as [_ <-]. simpl in He. lia.
Qed.

(** The scenario of the specification: 10:00 to 10:30 booked, 10:15 to
    10:45 refused, 10:30 to 11:00 accepted. *)
Lemma adjacent_booking_scenario :
  replies (serve sample_env (BookCmd (Book.mk 1 7 20000 615 645 None None))
                 {[1 := sample_row SCHEDULED 0]} 2)
  = [Next (AppError 409 SLOT_CONFLICT)]
  ∧ ∃ body,
      replies (serve sample_env (BookCmd (Book.mk 1 7 20000 630 660 None None))
                     {[1 := sample_row SCHEDULED 0]} 2)
      = [ResJson 201 body].
Proof. split; [by vm_compute|]. eexists. by vm_compute. Qed.

(** ** C4: the connection of the conflict query *)

(** C4 on the code.  A booking issues BEGIN, the INSERT and COMMIT on the
    client, and a reschedule BEGIN, the SELECT by id, the UPDATE and (the
    UPDATE being refused) ROLLBACK; both issue the conflict query on the
    pool: the query is not part of the client's transaction. *)
Theorem conflict_query_outside_transaction :
  statements (serve sample_env (BookCmd sample_booking) ∅ 1)
  = [(Client, BEGIN);
     (Pool, book_conflict_query sample_booking);
     (Client, book_insert sample_booking);
     (Client, COMMIT)]
  ∧ statements (serve sample_env (RescheduleCmd 1 sample_reschedule)
                      {[1 := sample_row SCHEDULED 0]} 2)
    = [(Client, BEGIN);
       (Client, SelectById 1);
       (Pool, reschedule_conflict_query (sample_row SCHEDULED 0) 1
                                        sample_reschedule);
       (Client, reschedule_update 1 sample_reschedule);
       (Client, ROLLBACK)].
Proof. split; vm_compute; reflexivity. Qed.

(** ** C5: the refund tier *)

(** [dateTime] on the sample data: day 20000 at 10:00, and the clock of
    [sample_env]. *)
Lemma dateTime_samples :
  dateTime 20000 600 = 1728036000000
  ∧ dateTime 19999 0 = 1727913600000
  ∧ dateTime 20000 600 - dateTime 19999 0 = 34 * 3600000.
Proof. repeat split. Qed.

(** C5 on the code, with the driver as it comes.  Whatever the
    appointment time and the clock are, an accepted cancel reports
    CANCELLATION_FEE: the stored date reaches the template as a [Date]
    object, [appointmentDateTime] is an Invalid Date, [hoursDiff] is
    [NaN], and both comparisons of the cascade are false.  So a cancel 34
    hours ahead, for which C5 says FULL_REFUND, reports CANCELLATION_FEE,
    to the caller and to billing. *)
Theorem refund_tier_on_date_objects env rows seq id why :
  ((∃ e,
      replies (serve (with_date_objects env) (CancelCmd id why) rows seq)
      = [Next e])
   ∨ (∃ row,
        replies (serve (with_date_objects env) (CancelCmd id why) rows seq)
        = [ResJson 200 (mkPayload (Some row) (Some CANCELLATION_FEE))]))
  ∧ replies (serve sample_env (CancelCmd 1 None)
                   {[1 := sample_row SCHEDULED 0]} 2)
    = [ResJson 200
         (mkPayload (Some (1, cancelled_row sample_env None
                                            (sample_row SCHEDULED 0)))
                    (Some CANCELLATION_FEE))]
  ∧ In (Http (PostBillCancel 1 CANCELLATION_FEE) (Rejected None))
       (trace (serve sample_env (CancelCmd 1 None)
                     {[1 := sample_row SCHEDULED 0]} 2)).
Proof.
  split; [|split; [by vm_compute|vm_compute; auto 10]].
  generalize (serve_Served (with_date_objects env) rows seq (CancelCmd id why)).
  generalize (serve (with_date_objects env) (CancelCmd id why) rows seq).
  intros w S. inversion S; simplify_eq; observe; eauto.
Qed.

(** With a driver that hands the date over as text, the tier an accepted
    cancel reports is the step function of C5, in milliseconds: 24 hours
    are 86400000 and 6 hours are 21600000. *)
Lemma refund_tier_on_date_text env rows seq id why a :
  rows !! id = Some a →
  status a ≠ CANCELLED →
  status a ≠ COMPLETED →
  ∃ row,
    replies (serve (with_date_text env) (CancelCmd id why) rows seq)
    = [ResJson 200
         (mkPayload (Some row)
            (Some (if decide (86400000
                              ≤ appointment_date a * 86400000
                                + start_time a * 60000 - now env)
                   then FULL_REFUND
                   else if decide (21600000
                                   ≤ appointment_date a * 86400000
                                     + start_time a * 60000 - now env)
                   then PARTIAL_REFUND
                   else CANCELLATION_FEE)))].
Proof.
  intros Hid Hc Hd.
  rewrite (Served_serve _ _ _ _ _
             (cancel_accepted (with_date_text env) rows seq id why a
                Hid Hc Hd)).
  observe. eexists. do 4 f_equal.
  unfold refund_of. rewrite stored_dateTime_text by reflexivity.
  apply refund_policy_of_timestamp.
Qed.

(** The boundaries of the specification on valid dates: exactly 24 h and
    exactly 6 h fall into the upper tier, one millisecond less into the
    lower, and a past appointment pays the fee. *)
Lemma refund_tier_boundaries :
  refund_policy_of (hoursBetween (Some (24 * 3600000)) 0) = FULL_REFUND
  ∧ refund_policy_of (hoursBetween (Some (24 * 3600000 - 1)) 0)
    = PARTIAL_REFUND
  ∧ refund_policy_of (hoursBetween (Some (6 * 3600000)) 0) = PARTIAL_REFUND
  ∧ refund_policy_of (hoursBetween (Some (6 * 3600000 - 1)) 0)
    = CANCELLATION_FEE
  ∧ refund_policy_of (hoursBetween (Some 0) 3600000) = CANCELLATION_FEE.
Proof. repeat split; by vm_compute. Qed.

(** ** C6: the cap on reschedules *)

(** C6.  A reschedule of a SCHEDULED appointment with
    [reschedule_count >= 2] fails with MAX_RESCHEDULE_EXCEEDED whatever
    the clock and the requested time are, and no command takes
    [reschedule_count] above 2 in a table where it was at most 2. *)
Theorem reschedule_cap env rows seq :
  (∀ id body a,
     rows !! id = Some a →
     status a = SCHEDULED →
     2 ≤ reschedule_count a →
     rejects env rows seq (RescheduleCmd id body)
             (AppError 400 MAX_RESCHEDULE_EXCEEDED))
  ∧ (∀ c,
       map_Forall (fun _ r => reschedule_count r ≤ 2) rows →
       map_Forall (fun _ r => reschedule_count r ≤ 2)
                  (table (serve env c rows seq))).
Proof.
  split.
  - intros id body a Hid Hs Hn.
    assert (¬ (status a = CANCELLED ∨ status a = COMPLETED)) as Hs'.
    { rewrite Hs. intros [?|?]; discriminate. }
    unfold rejects.
    by rewrite (Served_serve _ _ _ _ _
                  (reschedule_max_exceeded env rows seq id body a Hid Hs' Hn)).
  - intros c Hall.
    generalize (serve_Served env rows seq c).
    generalize (serve env c rows seq). intros w S.
    destruct S; simpl; try exact Hall;
      apply map_Forall_insert_2; try exact Hall; simpl;
      first [lia | eapply (Hall _ _); eassumption].
Qed.

(** A third reschedule is refused although the appointment is 34 hours
    away, and a second one takes no count above 2. *)
Lemma reschedule_cap_witness :
  rejects sample_env {[1 := sample_row SCHEDULED 2]} 2
          (RescheduleCmd 1 sample_reschedule)
          (AppError 400 MAX_RESCHEDULE_EXCEEDED)
  ∧ map_Forall (fun _ r => reschedule_count r ≤ 2)
      (table (serve sample_env (RescheduleCmd 1 sample_reschedule)
                    {[1 := sample_row SCHEDULED 1]} 2)).
Proof.
  split.
  - apply (proj1 (reschedule_cap sample_env {[1 := sample_row SCHEDULED 2]} 2)
             1 sample_reschedule (sample_row SCHEDULED 2)).
    + reflexivity.
    + reflexivity.
    + simpl. lia.
  - apply (proj2 (reschedule_cap sample_env {[1 := sample_row SCHEDULED 1]} 2)).
    apply map_Forall_singleton. simpl. lia.
Defined.

(** The cap comes before the cutoff: the appointment is half an hour
    away and the requested time is in the past. *)
Lemma cap_before_cutoff :
  replies (serve sample_env
                 (RescheduleCmd 1 (Reschedule.mk 19000 0 30 None))
                 {[1 := mkAppointment 1 7 19999 30 60 SCHEDULED None None
                                      2 3 0 0]} 2)
  = [Next (AppError 400 MAX_RESCHEDULE_EXCEEDED)].
Proof. by vm_compute. Qed.

(** ** C7: the one-hour cutoff *)

(** C7 on the code, with the driver as it comes.  No reschedule is
    answered CUTOFF_TIME_EXCEEDED, however close the appointment is: the
    stored date reaches the template as a [Date] object,
    [existingDateTime] is an Invalid Date, [hoursDiff] is [NaN] and
    [hoursDiff < 1] is false.  A reschedule half an hour before the
    appointment, for which C7 says CutoffExceeded, goes on to the
    conflict query and the UPDATE, and is answered with the error of the
    database. *)
Theorem cutoff_on_date_objects env rows seq id body :
  replies (serve (with_date_objects env) (RescheduleCmd id body) rows seq)
  ≠ [Next (AppError 400 CUTOFF_TIME_EXCEEDED)]
  ∧ replies (serve sample_env (RescheduleCmd 1 sample_reschedule)
                   {[1 := imminent_row]} 2)
    = [Next (DatabaseError "42P18")]
  ∧ statements (serve sample_env (RescheduleCmd 1 sample_reschedule)
                      {[1 := imminent_row]} 2)
    = [(Client, BEGIN);
       (Client, SelectById 1);
       (Pool, reschedule_conflict_query imminent_row 1 sample_reschedule);
       (Client, reschedule_update 1 sample_reschedule);
       (Client, ROLLBACK)].
Proof.
  split; [|split; by vm_compute].
  generalize (serve_Served (with_date_objects env) rows seq
                (RescheduleCmd id body)).
  generalize (serve (with_date_objects env) (RescheduleCmd id body) rows seq).
  intros w S. inversion S; simplify_eq; observe; try discriminate.
  match goal with H : within_cutoff _ _ |- _ => destruct H end.
Qed.

(** With a driver that hands the date over as text, a reschedule of an
    appointment that is neither CANCELLED nor COMPLETED and was
    rescheduled fewer than twice is answered CUTOFF_TIME_EXCEEDED exactly
    when its start lies less than 3600000 milliseconds after now. *)
Lemma cutoff_on_date_text env rows seq id body a :
  rows !! id = Some a →
  status a ≠ CANCELLED →
  status a ≠ COMPLETED →
  reschedule_count a < 2 →
  replies (serve (with_date_text env) (RescheduleCmd id body) rows seq)
  = [Next (AppError 400 CUTOFF_TIME_EXCEEDED)]
  ↔ appointment_date a * 86400000 + start_time a * 60000 - now env < 3600000.
Proof.
  intros Hid Hc Hd Hn.
  assert (¬ (status a = CANCELLED ∨ status a = COMPLETED)) as Hs by tauto.
  assert (within_cutoff (with_date_text env) a
          ↔ appointment_date a * 86400000 + start_time a * 60000 - now env
            < 3600000) as Hcut.
  { unfold within_cutoff. by rewrite stored_dateTime_text by reflexivity. }
  rewrite <- Hcut. split.
  - generalize (serve_Served (with_date_text env) rows seq
                  (RescheduleCmd id body)).
    generalize (serve (with_date_text env) (RescheduleCmd id body) rows seq).
    intros w S. inversion S; simplify_eq; observe; try discriminate.
    done.
  - intros Hw.
    by rewrite (Served_serve _ _ _ _ _
                  (reschedule_cutoff_exceeded (with_date_text env) rows seq
                     id body a Hid Hs Hn Hw)).
Qed.

(** ** C8: failures roll back *)

(** The checks of a command, decided from what the request finds. *)
Ltac decided :=
  unfold first_failure;
  repeat match goal with
         | F : fulfilled ?x |- _ =>
             destruct (fulfilled_cases x F) as [[? ->]| ->]; clear F
         | H : ?x = Rejected _ |- context [?x] => rewrite H
         | H : ?x = Fulfilled _ |- context [?x] => rewrite H
         | H : ?x = FulfilledWithoutData |- context [?x] => rewrite H
         | H : ?m !! ?i = _ |- context [?m !! ?i] => rewrite H
         end;
  repeat (destruct (decide _); try clash).

(** [first_failure] names the path of a request. *)
Lemma Served_first_failure env rows seq c w :
  Served env rows seq c w →
  match first_failure env rows seq c with
  | Some e =>
      replies w = [Next e]
      ∧ table w = rows
      ∧ txn w = None
      ∧ last (statements w) = Some (Client, ROLLBACK)
      ∧ ¬ In (Client, COMMIT) (statements w)
  | None =>
      (∃ httpStatus body,
         replies w = [ResJson httpStatus body]
         ∧ last (statements w) = Some (Client, COMMIT)
         ∧ ¬ In (Client, ROLLBACK) (statements w))
      ∨ (∃ body,
           c = BookCmd body
           ∧ doctorService env (Book.doctor_id body) = FulfilledWithoutData
           ∧ replies w = [Next TypeError]
           ∧ In (Client, COMMIT) (statements w))
  end.
Proof.
  intros S.
  destruct S;
    try match goal with
        | H : target ?c = Some _ |- _ =>
            destruct c; simpl in H; simplify_eq
        end;
    decided; rewrite ?lookup_failure_error; observe.
  all: first
    [ split; [reflexivity|]; split; [reflexivity|]; split; [reflexivity|];
      split; [reflexivity|]; not_in
    | left; eexists _, _;
      split; [reflexivity|]; split; [reflexivity|]; not_in
    | right; eexists;
      split; [reflexivity|]; split; [eassumption|];
      split; [reflexivity|]; simpl; auto 10 ].
Qed.

(** C8.  Every command ends in exactly one reply.  When it is [next(e)]
    and the command had not committed, [e] is the error of the first
    check of the handler that fails ([first_failure] lists the checks in
    the order of the source, each with its own error), the client's last
    statement is ROLLBACK, no transaction stays open and the table is the
    one the request found.  The one [next(e)] after a COMMIT is the
    TypeError of a booking whose doctor lookup was answered without a
    [data] member: it is raised after the transaction, when [doctor.name]
    is read for the notification.  When the reply is [res.json] no check
    has failed, the client's last statement is COMMIT and nothing was
    rolled back: no success payload comes with a failure. *)
Theorem failure_rolls_back env c rows seq :
  (∀ e,
     replies (serve env c rows seq) = [Next e] →
     (first_failure env rows seq c = Some e
      ∧ table (serve env c rows seq) = rows
      ∧ txn (serve env c rows seq) = None
      ∧ last (statements (serve env c rows seq)) = Some (Client, ROLLBACK)
      ∧ ¬ In (Client, COMMIT) (statements (serve env c rows seq)))
     ∨ (e = TypeError
        ∧ first_failure env rows seq c = None
        ∧ In (Client, COMMIT) (statements (serve env c rows seq))
        ∧ ∃ body,
            c = BookCmd body
            ∧ doctorService env (Book.doctor_id body) = FulfilledWithoutData))
  ∧ (∀ httpStatus body,
       replies (serve env c rows seq) = [ResJson httpStatus body] →
       first_failure env rows seq c = None
       ∧ last (statements (serve env c rows seq)) = Some (Client, COMMIT)
       ∧ ¬ In (Client, ROLLBACK) (statements (serve env c rows seq)))
  ∧ ((∃ e, replies (serve env c rows seq) = [Next e])
     ∨ (∃ httpStatus body,
          replies (serve env c rows seq) = [ResJson httpStatus body])).
Proof.
  pose proof (Served_first_failure env rows seq c _ (serve_Served env rows seq c))
    as H.
  split; [|split].
  - intros e Hr. rewrite Hr in H.
    destruct (first_failure env rows seq c) as [e'|].
    + left. destruct H as ([= ->] & Ht & Hx & Hl & Hn). by repeat split.
    + right. destruct H as [(st & p & [=] & _)|(body & -> & Hd & [= ->] & Hin)].
      repeat split; try done. by exists body.
  - intros st p Hr. rewrite Hr in H.
    destruct (first_failure env rows seq c) as [e'|].
    + by destruct H as ([=] & _).
    + destruct H as [(st' & p' & _ & Hl & Hn)|(body & _ & _ & [=] & _)].
      by repeat split.
  - apply (Served_replies env rows seq c), serve_Served.
Qed.

(** A booking into a taken slot: SLOT_CONFLICT, rolled back. *)
Lemma failure_rolls_back_witness :
  first_failure sample_env {[1 := sample_row SCHEDULED 0]} 2
                (BookCmd sample_booking)
  = Some (AppError 409 SLOT_CONFLICT)
  ∧ table (serve sample_env (BookCmd sample_booking)
                 {[1 := sample_row SCHEDULED 0]} 2)
    = {[1 := sample_row SCHEDULED 0]}
  ∧ last (statements (serve sample_env (BookCmd sample_booking)
                            {[1 := sample_row SCHEDULED 0]} 2))
    = Some (Client, ROLLBACK).
Proof.
  destruct (proj1 (failure_rolls_back sample_env (BookCmd sample_booking)
                     {[1 := sample_row SCHEDULED 0]} 2)
              (AppError 409 SLOT_CONFLICT))
    as [(Hf & Ht & _ & Hl & _)|(He & _)]; [by vm_compute| |discriminate He].
  split; [exact Hf|]. split; [exact Ht|exact Hl].
Defined.

(** A booking whose doctor lookup is answered without a [data] member:
    the row is stored and the caller gets the TypeError. *)
Lemma type_error_after_commit :
  replies (serve env_doctor_without_data (BookCmd sample_booking) ∅ 1)
  = [Next TypeError]
  ∧ table (serve env_doctor_without_data (BookCmd sample_booking) ∅ 1)
    = {[1 := booked_row env_doctor_without_data sample_booking]}
  ∧ statements (serve env_doctor_without_data (BookCmd sample_booking) ∅ 1)
    = [(Client, BEGIN);
       (Pool, book_conflict_query sample_booking);
       (Client, book_insert sample_booking);
       (Client, COMMIT);
       (Client, ROLLBACK)].
Proof. repeat split; by vm_compute. Qed.

(** ** C9: failures after the commit *)

(** C9.  Whatever the billing and the notification service answer, the
    committed table, the reply and the statements sent to the database
    are the same, and every rejected post-commit request is matched by
    one logged warning. *)
Theorem best_effort_failures_swallowed
    env c rows seq billing notification billing' notification' :
  table (serve (with_collaborators env billing notification) c rows seq)
  = table (serve (with_collaborators env billing' notification') c rows seq)
  ∧ replies (serve (with_collaborators env billing notification) c rows seq)
    = replies (serve (with_collaborators env billing' notification') c rows seq)
  ∧ statements (serve (with_collaborators env billing notification) c rows seq)
    = statements (serve (with_collaborators env billing' notification')
                        c rows seq)
  ∧ length (List.filter is_warning
              (trace (serve (with_collaborators env billing notification)
                            c rows seq)))
    = length (List.filter is_rejected_post
                (trace (serve (with_collaborators env billing notification)
                              c rows seq))).
Proof.
  destruct (collaborators_irrelevant env rows seq c billing notification
              billing' notification' _ (serve_Served _ rows seq c))
    as (w' & S' & Ht & _ & Hr & Hs).
  apply Served_serve in S'. rewrite S'.
  repeat split; try assumption.
  apply (Served_warnings (with_collaborators env billing notification)
                         rows seq c), serve_Served.
Qed.

(** Both services down: the cancel is committed and answered with 200,
    and two warnings are logged. *)
Lemma cancel_with_collaborators_down :
  replies (serve sample_env (CancelCmd 1 None)
                 {[1 := sample_row SCHEDULED 0]} 2)
  = [ResJson 200
       (mkPayload (Some (1, cancelled_row sample_env None
                                          (sample_row SCHEDULED 0)))
                  (Some CANCELLATION_FEE))]
  ∧ List.filter is_warning
      (trace (serve sample_env (CancelCmd 1 None)
                    {[1 := sample_row SCHEDULED 0]} 2))
    = [LogWarn "Failed to notify billing service";
       LogWarn "Failed to send notification"].
Proof. split; by vm_compute. Qed.

(** ** C10: what a no-show changes *)

(** C10.  A no-show on a SCHEDULED appointment is accepted; the stored
    and returned row differs from the old one in [status] (now NO_SHOW)
    and [updated_at] only, under the same id, and no other row changes. *)
Theorem no_show_frame env rows seq id a :
  rows !! id = Some a →
  status a = SCHEDULED →
  ∃ a',
    table (serve env (NoShowCmd id) rows seq) = <[id := a']> rows
    ∧ replies (serve env (NoShowCmd id) rows seq)
        = [ResJson 200 (mkPayload (Some (id, a')) None)]
    ∧ status a' = NO_SHOW
    ∧ updated_at a' = CURRENT_TIMESTAMP env
    ∧ patient_id a' = patient_id a
    ∧ doctor_id a' = doctor_id a
    ∧ appointment_date a' = appointment_date a
    ∧ start_time a' = start_time a
    ∧ end_time a' = end_time a
    ∧ reason a' = reason a
    ∧ notes a' = notes a
    ∧ reschedule_count a' = reschedule_count a
    ∧ version a' = version a
    ∧ created_at a' = created_at a.
Proof.
  intros Hid Hs.
  rewrite (Served_serve _ _ _ _ _ (no_show_accepted env rows seq id a Hid Hs)).
  exists (no_show_row env a).
  rewrite replies_committed, best_effort_no_reply. simpl.
  repeat split; reflexivity.
Qed.

(** A no-show on appointment 1 at version 1. *)
Lemma no_show_frame_witness :
  ∃ a',
    table (serve sample_env (NoShowCmd 1) {[1 := sample_row SCHEDULED 0]} 2)
      = <[1 := a']> {[1 := sample_row SCHEDULED 0]}
    ∧ status a' = NO_SHOW
    ∧ version a' = 1.
Proof.
  destruct (no_show_frame sample_env {[1 := sample_row SCHEDULED 0]} 2 1
              (sample_row SCHEDULED 0))
    as (a' & Ht & _ & Hst & _ & _ & _ & _ & _ & _ & _ & _ & _ & Hv & _);
    [reflexivity|reflexivity|].
  exists a'. split; [exact Ht|]. split; [exact Hst|exact Hv].
Defined.

(** * Further properties of the handlers *)

(** The paths a given command can take, with replies and statements in
    the open. *)
Ltac paths env rows seq c :=
  let w := fresh "w" in
  let S := fresh "S" in
  generalize (serve_Served env rows seq c);
  generalize (serve env c rows seq); intros w S;
  inversion S; simplify_eq; observe.

(** ** Booking *)

(** X1.  A booking is accepted only when the patient lookup is
    fulfilled, the doctor lookup is fulfilled with a [data] member, no
    stored appointment satisfies the conflict query, and neither the id
    drawn from the sequence nor the doctor, date and start of the
    request is taken. *)
Theorem booking_accepted_only_if env body rows seq httpStatus payload :
  replies (serve env (BookCmd body) rows seq) = [ResJson httpStatus payload] →
  fulfilled (patientService env (Book.patient_id body))
  ∧ (∃ doctor, doctorService env (Book.doctor_id body) = Fulfilled doctor)
  ∧ ¬ conflicting rows (Book.doctor_id body) (Book.appointment_date body)
                  (Book.start_time body) (Book.end_time body) None
  ∧ rows !! seq = None
  ∧ ¬ unique_taken rows seq (booked_row env body).
Proof.
  paths env rows seq (BookCmd body); try discriminate.
  intros _.
  split; [assumption|]. split; [by eauto|]. split; [assumption|].
  split; [apply eq_None_not_Some; tauto|tauto].
Qed.

(** The slot after a stored appointment. *)
Lemma booking_accepted_only_if_witness :
  ¬ conflicting {[1 := sample_row SCHEDULED 0]}
      (Book.doctor_id adjacent_booking) (Book.appointment_date adjacent_booking)
      (Book.start_time adjacent_booking) (Book.end_time adjacent_booking) None
  ∧ ({[1 := sample_row SCHEDULED 0]} : gmap Z Appointment) !! 2 = None.
Proof.
  destruct (booking_accepted_only_if sample_env adjacent_booking
              {[1 := sample_row SCHEDULED 0]} 2 201
              (mkPayload (Some (2, booked_row sample_env adjacent_booking))
                         None))
    as (_ & _ & Hfree & Hid & _); [by vm_compute|].
  split; [exact Hfree|exact Hid].
Defined.

(** X2.  An accepted booking answers 201 with the new row: it is stored
    under the id drawn from the sequence, which was free, holds the
    fields of the request with status SCHEDULED, [reschedule_count] 0 and
    [version] 1, and the sequence moves on by one. *)
Theorem booking_effect env body rows seq httpStatus payload :
  replies (serve env (BookCmd body) rows seq) = [ResJson httpStatus payload] →
  httpStatus = 201
  ∧ payload = mkPayload (Some (seq, booked_row env body)) None
  ∧ rows !! seq = None
  ∧ table (serve env (BookCmd body) rows seq) = <[seq := booked_row env body]> rows
  ∧ sequence (serve env (BookCmd body) rows seq) = seq + 1
  ∧ booked_row env body
    = mkAppointment (Book.patient_id body) (Book.doctor_id body)
        (Book.appointment_date body) (Book.start_time body)
        (Book.end_time body) SCHEDULED (Book.reason body) (Book.notes body)
        0 1 (CURRENT_TIMESTAMP env) (CURRENT_TIMESTAMP env).
Proof.
  paths env rows seq (BookCmd body); try discriminate.
  intros [= <- <-].
  repeat (split; [reflexivity|]).
  split; [apply eq_None_not_Some; tauto|].
  repeat split; reflexivity.
Qed.

(** The first booking on an empty table gets id 1. *)
Lemma booking_effect_witness :
  table (serve sample_env (BookCmd sample_booking) ∅ 1)
  = <[1 := booked_row sample_env sample_booking]> ∅
  ∧ sequence (serve sample_env (BookCmd sample_booking) ∅ 1) = 2.
Proof.
  destruct (booking_effect sample_env sample_booking ∅ 1 201
              (mkPayload (Some (1, booked_row sample_env sample_booking)) None))
    as (_ & _ & _ & Ht & Hs & _); [by vm_compute|].
  split; [exact Ht|exact Hs].
Defined.

(** X3.  When the patient lookup is rejected the booking fails with
    PATIENT_NOT_FOUND (404) for a 404 answer and with SERVICE_UNAVAILABLE
    (503) otherwise, the doctor service is not asked and the database
    sees only BEGIN and ROLLBACK; when the patient is found and the
    doctor lookup is rejected it fails with DOCTOR_NOT_FOUND or
    SERVICE_UNAVAILABLE in the same way. *)
Theorem booking_lookup_failures env body rows seq :
  (∀ st,
     patientService env (Book.patient_id body) = Rejected st →
     replies (serve env (BookCmd body) rows seq)
       = [Next (if decide (st = Some 404)
                then AppError 404 PATIENT_NOT_FOUND
                else AppError 503 SERVICE_UNAVAILABLE)]
     ∧ List.filter is_lookup (trace (serve env (BookCmd body) rows seq))
       = [Http (GetPatient (Book.patient_id body)) (Rejected st)]
     ∧ statements (serve env (BookCmd body) rows seq)
       = [(Client, BEGIN); (Client, ROLLBACK)])
  ∧ (∀ patient st,
       patientService env (Book.patient_id body) = Fulfilled patient →
       doctorService env (Book.doctor_id body) = Rejected st →
       replies (serve env (BookCmd body) rows seq)
         = [Next (if decide (st = Some 404)
                  then AppError 404 DOCTOR_NOT_FOUND
                  else AppError 503 SERVICE_UNAVAILABLE)]
       ∧ statements (serve env (BookCmd body) rows seq)
         = [(Client, BEGIN); (Client, ROLLBACK)]).
Proof.
  assert (∀ code st,
            lookup_failure code st
            = if decide (st = Some 404) then AppError 404 code
              else AppError 503 SERVICE_UNAVAILABLE) as Hmap.
  { intros code [st|]; unfold lookup_failure, response_status_is_404.
    - destruct (Z.eqb_spec st 404) as [->|Hne], (decide _) as [Heq|Hneq];
        try reflexivity; exfalso.
      + by apply Hneq.
      + injection Heq as ->. by apply Hne.
    - destruct (decide _) as [Heq|Hneq]; [discriminate Heq|reflexivity]. }
  split.
  - intros st Hp.
    rewrite (Served_serve _ _ _ _ _
               (book_patient_rejected env rows seq body st Hp)).
    observe. rewrite Hmap. repeat split; reflexivity.
  - intros patient st Hp Hd.
    assert (fulfilled (patientService env (Book.patient_id body))) as Fp
      by (intros ?; rewrite Hp; discriminate).
    rewrite (Served_serve _ _ _ _ _
               (book_doctor_rejected env rows seq body st Fp Hd)).
    observe. rewrite Hmap. repeat split; reflexivity.
Qed.

(** The patient service answers 404. *)
Lemma booking_lookup_failures_witness :
  replies (serve env_patient_unknown (BookCmd sample_booking) ∅ 1)
  = [Next (AppError 404 PATIENT_NOT_FOUND)].
Proof.
  exact (proj1 (proj1 (booking_lookup_failures env_patient_unknown
                         sample_booking ∅ 1) (Some 404) eq_refl)).
Defined.

(** X4.  No command is answered INVALID_DATE: behind the validator the
    date of the request is a [Date] object, [appointmentDateTime] and
    [newDateTime] are Invalid Dates, and the two tests that guard the
    [throw] are false.  A booking whose start is the present instant
    passes, and is accepted. *)
Theorem invalid_date_never_answered env c rows seq :
  replies (serve env c rows seq) ≠ [Next (AppError 400 INVALID_DATE)]
  ∧ replies (serve sample_env (BookCmd midnight_booking) ∅ 1)
    = [ResJson 201
         (mkPayload (Some (1, booked_row sample_env midnight_booking)) None)].
Proof.
  split; [|by vm_compute].
  generalize (serve_Served env rows seq c).
  generalize (serve env c rows seq). intros w S.
  destruct S; observe; try discriminate;
    unfold lookup_failure; destruct (response_status_is_404 _); discriminate.
Qed.

(** ** Rescheduling and cancelling *)

(** X5.  No reschedule is accepted.  Every reschedule is answered with an
    error and leaves table and sequence as they were; one that passes the
    status guard, the cap, the cutoff test and the conflict query sends
    its UPDATE, which the database refuses (SQLSTATE 42P18), and is
    answered with that error after a ROLLBACK. *)
Theorem reschedule_never_accepted env rows seq id body :
  (∃ e, replies (serve env (RescheduleCmd id body) rows seq) = [Next e])
  ∧ table (serve env (RescheduleCmd id body) rows seq) = rows
  ∧ sequence (serve env (RescheduleCmd id body) rows seq) = seq
  ∧ (∀ a,
       rows !! id = Some a →
       status a ≠ CANCELLED → status a ≠ COMPLETED →
       reschedule_count a < 2 →
       ¬ within_cutoff env a →
       ¬ conflicting rows (doctor_id a) (Reschedule.appointment_date body)
                     (Reschedule.start_time body) (Reschedule.end_time body)
                     (Some id) →
       replies (serve env (RescheduleCmd id body) rows seq)
       = [Next (DatabaseError "42P18")]
       ∧ statements (serve env (RescheduleCmd id body) rows seq)
         = [(Client, BEGIN);
            (Client, SelectById id);
            (Pool, reschedule_conflict_query a id body);
            (Client, reschedule_update id body);
            (Client, ROLLBACK)]).
Proof.
  split; [|split; [|split]].
  - paths env rows seq (RescheduleCmd id body); eauto.
  - generalize (serve_Served env rows seq (RescheduleCmd id body)).
    generalize (serve env (RescheduleCmd id body) rows seq). intros w S.
    inversion S; reflexivity.
  - generalize (serve_Served env rows seq (RescheduleCmd id body)).
    generalize (serve env (RescheduleCmd id body) rows seq). intros w S.
    inversion S; reflexivity.
  - intros a Hid Hc Hd Hn Hcut Hfree.
    assert (¬ (status a = CANCELLED ∨ status a = COMPLETED)) as Hs by tauto.
    rewrite (Served_serve _ _ _ _ _
               (reschedule_update_refused env rows seq id body a
                  Hid Hs Hn Hcut Hfree)).
    observe. by split.
Qed.

(** A first reschedule, 34 hours ahead, to a free slot. *)
Lemma reschedule_never_accepted_witness :
  replies (serve sample_env (RescheduleCmd 1 sample_reschedule)
                 {[1 := sample_row SCHEDULED 0]} 2)
  = [Next (DatabaseError "42P18")]
  ∧ table (serve sample_env (RescheduleCmd 1 sample_reschedule)
                 {[1 := sample_row SCHEDULED 0]} 2)
    = {[1 := sample_row SCHEDULED 0]}.
Proof.
  destruct (reschedule_never_accepted sample_env
              {[1 := sample_row SCHEDULED 0]} 2 1 sample_reschedule)
    as (_ & Ht & _ & Hrefused).
  split; [|exact Ht].
  apply (Hrefused (sample_row SCHEDULED 0)).
  - reflexivity.
  - discriminate.
  - discriminate.
  - simpl. lia.
  - by vm_compute.
  - unfold conflicting. apply (bool_decide_eq_false_1 _). by vm_compute.
Defined.

(** X6.  A booking is answered with a TypeError only when the doctor
    lookup was fulfilled by a body without a [data] member.  The booking
    is then committed all the same: the row is stored under the id drawn
    from the sequence, no notification is sent, and the ROLLBACK of the
    [catch] comes after the COMMIT. *)
Theorem booking_type_error_after_commit env body rows seq :
  replies (serve env (BookCmd body) rows seq) = [Next TypeError] →
  doctorService env (Book.doctor_id body) = FulfilledWithoutData
  ∧ table (serve env (BookCmd body) rows seq)
    = <[seq := booked_row env body]> rows
  ∧ sequence (serve env (BookCmd body) rows seq) = seq + 1
  ∧ List.filter is_post (trace (serve env (BookCmd body) rows seq)) = []
  ∧ statements (serve env (BookCmd body) rows seq)
    = [(Client, BEGIN);
       (Pool, book_conflict_query body);
       (Client, book_insert body);
       (Client, COMMIT);
       (Client, ROLLBACK)].
Proof.
  generalize (serve_Served env rows seq (BookCmd body)).
  generalize (serve env (BookCmd body) rows seq). intros w S.
  inversion S; simplify_eq; observe; try discriminate;
    try (unfold lookup_failure; destruct (response_status_is_404 _);
         discriminate).
  intros _. by repeat split.
Qed.

(** The first booking on an empty table, the doctor service answering
    without [data]. *)
Lemma booking_type_error_after_commit_witness :
  doctorService env_doctor_without_data (Book.doctor_id sample_booking)
  = FulfilledWithoutData
  ∧ table (serve env_doctor_without_data (BookCmd sample_booking) ∅ 1)
    = <[1 := booked_row env_doctor_without_data sample_booking]> ∅.
Proof.
  destruct (booking_type_error_after_commit env_doctor_without_data
              sample_booking ∅ 1)
    as (Hd & Ht & _); [by vm_compute|].
  split; [exact Hd|exact Ht].
Defined.

(** X7.  [checkSlotConflict] with an excluded id answers what it would
    answer without exclusion on the table from which that row is
    removed: an appointment never conflicts with itself. *)
Theorem conflict_check_excludes_own_row env rows seq pending tr
    doctorId appointmentDate startTime endTime id :
  hasConflict env (mkWorld rows seq pending tr)
              doctorId appointmentDate startTime endTime (Some id)
  = hasConflict env (mkWorld (delete id rows) seq pending tr)
                doctorId appointmentDate startTime endTime None.
Proof.
  unfold hasConflict. rewrite !checkSlotConflict_run. simpl.
  f_equal. apply bool_decide_ext. unfold conflicting.
  split; intros (k & r & Hk & Hw); exists k, r;
    apply conflict_where_iff in Hw as (Hd & Hdt & Hc1 & Hc2 & Hex & Hov).
  - split.
    + apply lookup_delete_Some. split; [|exact Hk].
      intros Heq. exact (Hex id eq_refl (eq_sym Heq)).
    + apply conflict_where_iff. repeat (split; [assumption|]).
      split; [discriminate|assumption].
  - apply lookup_delete_Some in Hk as [Hne Hk].
    split; [exact Hk|].
    apply conflict_where_iff. repeat (split; [assumption|]).
    split; [|assumption]. intros x [= <-] Heq. apply Hne. by symmetry.
Qed.

(** X8.  A cancel of a stored appointment is accepted exactly when its
    status is neither CANCELLED nor COMPLETED; the row then gets status
    CANCELLED, a note line "Cancelled: " with the reason or "No reason
    provided" and a new [updated_at], and nothing else of it changes. *)
Theorem cancel_accepted_effect env rows seq id why a :
  rows !! id = Some a →
  ((∃ httpStatus payload,
      replies (serve env (CancelCmd id why) rows seq)
      = [ResJson httpStatus payload])
   ↔ status a ≠ CANCELLED ∧ status a ≠ COMPLETED)
  ∧ (status a ≠ CANCELLED → status a ≠ COMPLETED →
     ∃ a',
       table (serve env (CancelCmd id why) rows seq) = <[id := a']> rows
       ∧ status a' = CANCELLED
       ∧ notes a'
         = Some (default "" (notes a)
                 +:+ String (Ascii.ascii_of_nat 10) "Cancelled: "
                 +:+ default "No reason provided" why)
       ∧ updated_at a' = CURRENT_TIMESTAMP env
       ∧ patient_id a' = patient_id a
       ∧ doctor_id a' = doctor_id a
       ∧ appointment_date a' = appointment_date a
       ∧ start_time a' = start_time a
       ∧ end_time a' = end_time a
       ∧ reason a' = reason a
       ∧ reschedule_count a' = reschedule_count a
       ∧ version a' = version a
       ∧ created_at a' = created_at a).
Proof.
  intros Hid. split.
  - split.
    + intros (st & p & Hr). revert Hr.
      paths env rows seq (CancelCmd id why); try discriminate. done.
    + intros [Hc Hd].
      rewrite (Served_serve _ _ _ _ _
                 (cancel_accepted env rows seq id why a Hid Hc Hd)).
      observe. eauto.
  - intros Hc Hd.
    rewrite (Served_serve _ _ _ _ _
               (cancel_accepted env rows seq id why a Hid Hc Hd)).
    exists (cancelled_row env why a). repeat split; reflexivity.
Qed.

(** A cancel with a reason. *)
Lemma cancel_accepted_effect_witness :
  ∃ a',
    table (serve sample_env (CancelCmd 1 (Some "better"))
                 {[1 := sample_row SCHEDULED 0]} 2)
    = <[1 := a']> {[1 := sample_row SCHEDULED 0]}
    ∧ status a' = CANCELLED
    ∧ notes a' = Some (String (Ascii.ascii_of_nat 10) "Cancelled: better").
Proof.
  assert (({[1 := sample_row SCHEDULED 0]} : gmap Z Appointment) !! 1
          = Some (sample_row SCHEDULED 0)) as Hid by reflexivity.
  destruct (proj2 (cancel_accepted_effect sample_env
                     {[1 := sample_row SCHEDULED 0]} 2 1 (Some "better")
                     (sample_row SCHEDULED 0) Hid))
    as (a' & Ht & Hs & Hn & _); [discriminate|discriminate|].
  exists a'. split; [exact Ht|]. split; [exact Hs|exact Hn].
Defined.

(** ** Billing *)

(** X9.  An accepted complete sends exactly one request after the commit,
    the bill of 500 for the patient and doctor of the row, and stores
    status COMPLETED with a note line "Completion notes: "; every later
    reschedule, cancel, complete or no-show of that appointment fails
    with INVALID_STATUS and sends nothing, so it is never billed twice. *)
Theorem completion_bills_once env rows seq id remarks a :
  rows !! id = Some a →
  status a = SCHEDULED →
  List.filter is_post (trace (serve env (CompleteCmd id remarks) rows seq))
  = [Http (PostBill id (patient_id a) (doctor_id a) 500 false)
          (billingService env)]
  ∧ (∃ a',
       table (serve env (CompleteCmd id remarks) rows seq) = <[id := a']> rows
       ∧ status a' = COMPLETED
       ∧ notes a'
         = Some (default "" (notes a)
                 +:+ String (Ascii.ascii_of_nat 10) "Completion notes: "
                 +:+ default "No notes" remarks))
  ∧ ∀ env' c,
      target c = Some id →
      replies (serve env' c
                 (table (serve env (CompleteCmd id remarks) rows seq))
                 (sequence (serve env (CompleteCmd id remarks) rows seq)))
      = [Next (AppError 400 INVALID_STATUS)]
      ∧ List.filter is_post
          (trace (serve env' c
                    (table (serve env (CompleteCmd id remarks) rows seq))
                    (sequence (serve env (CompleteCmd id remarks) rows seq))))
        = [].
Proof.
  intros Hid Hs.
  rewrite (Served_serve _ _ _ _ _
             (complete_accepted env rows seq id remarks a Hid Hs)).
  split; [|split].
  - unfold committed, best_effort; simpl.
    destruct (billingService env); reflexivity.
  - exists (completed_row env remarks a). by repeat split.
  - intros env' c Hc. simpl.
    assert ((<[id := completed_row env remarks a]> rows) !! id
            = Some (completed_row env remarks a)) as Hnew
      by apply lookup_insert_eq.
    assert (status (completed_row env remarks a) = COMPLETED) as Hdone
      by reflexivity.
    destruct c as [body|id' body|id' why|id' notes'|id']; simpl in Hc;
      try discriminate; injection Hc as ->.
    + by rewrite (Served_serve _ _ _ _ _
           (reschedule_invalid_status env' _ seq id body _ Hnew (or_intror Hdone))).
    + by rewrite (Served_serve _ _ _ _ _
           (cancel_completed env' _ seq id why _ Hnew Hdone)).
    + assert (status (completed_row env remarks a) ≠ SCHEDULED) as Hn
        by discriminate.
      by rewrite (Served_serve _ _ _ _ _
           (complete_invalid_status env' _ seq id notes' _ Hnew Hn)).
    + assert (status (completed_row env remarks a) ≠ SCHEDULED) as Hn
        by discriminate.
      by rewrite (Served_serve _ _ _ _ _
           (no_show_invalid_status env' _ seq id _ Hnew Hn)).
Qed.

(** The bill of a completion, the billing service being down. *)
Lemma completion_bills_once_witness :
  List.filter is_post
    (trace (serve sample_env (CompleteCmd 1 None)
                  {[1 := sample_row SCHEDULED 0]} 2))
  = [Http (PostBill 1 1 7 500 false) (Rejected None)].
Proof.
  refine (proj1 (completion_bills_once sample_env
                   {[1 := sample_row SCHEDULED 0]} 2 1 None
                   (sample_row SCHEDULED 0) _ _)); reflexivity.
Defined.

(** X10.  An accepted no-show sends exactly one request after the
    commit, the no-show fee of 100; the appointment can still be
    cancelled afterwards: the cancel is accepted, stores CANCELLED and
    sends a refund tier to billing. *)
Theorem no_show_fee_then_cancel env rows seq id a :
  rows !! id = Some a →
  status a = SCHEDULED →
  List.filter is_post (trace (serve env (NoShowCmd id) rows seq))
  = [Http (PostBill id (patient_id a) (doctor_id a) 100 true)
          (billingService env)]
  ∧ ∀ env' why,
      ∃ row tier,
        replies (serve env' (CancelCmd id why)
                   (table (serve env (NoShowCmd id) rows seq))
                   (sequence (serve env (NoShowCmd id) rows seq)))
        = [ResJson 200 (mkPayload (Some row) (Some tier))]
        ∧ status row.2 = CANCELLED
        ∧ In (Http (PostBillCancel id tier) (billingService env'))
             (trace (serve env' (CancelCmd id why)
                       (table (serve env (NoShowCmd id) rows seq))
                       (sequence (serve env (NoShowCmd id) rows seq)))).
Proof.
  intros Hid Hs.
  rewrite (Served_serve _ _ _ _ _ (no_show_accepted env rows seq id a Hid Hs)).
  split.
  - unfold committed, best_effort; simpl.
    destruct (billingService env); reflexivity.
  - intros env' why. simpl.
    assert ((<[id := no_show_row env a]> rows) !! id = Some (no_show_row env a))
      as Hnew by apply lookup_insert_eq.
    assert (status (no_show_row env a) ≠ CANCELLED) as Hc by discriminate.
    assert (status (no_show_row env a) ≠ COMPLETED) as Hd by discriminate.
    rewrite (Served_serve _ _ _ _ _
               (cancel_accepted env' _ seq id why _ Hnew Hc Hd)).
    eexists _, _. observe. split; [reflexivity|]. split; [reflexivity|].
    unfold committed, best_effort; simpl. auto 10.
Qed.

(** The fee of a no-show. *)
Lemma no_show_fee_then_cancel_witness :
  List.filter is_post
    (trace (serve sample_env (NoShowCmd 1) {[1 := sample_row SCHEDULED 0]} 2))
  = [Http (PostBill 1 1 7 100 true) (Rejected None)].
Proof.
  refine (proj1 (no_show_fee_then_cancel sample_env
                   {[1 := sample_row SCHEDULED 0]} 2 1
                   (sample_row SCHEDULED 0) _ _)); reflexivity.
Defined.

(** ** What every command keeps *)

(** What a command does to the table and the sequence. *)
Lemma table_step env rows seq c w :
  Served env rows seq c w →
  (table w = rows ∧ seq ≤ sequence w)
  ∨ (∃ body,
       c = BookCmd body ∧ rows !! seq = None
       ∧ ¬ conflicting rows (Book.doctor_id body) (Book.appointment_date body)
                       (Book.start_time body) (Book.end_time body) None
       ∧ ¬ unique_taken rows seq (booked_row env body)
       ∧ table w = <[seq := booked_row env body]> rows
       ∧ sequence w = seq + 1)
  ∨ (∃ id a a',
       rows !! id = Some a ∧ table w = <[id := a']> rows ∧ sequence w = seq
       ∧ ((∃ why, a' = cancelled_row env why a
                  ∧ status a ≠ CANCELLED ∧ status a ≠ COMPLETED)
          ∨ (∃ remarks, a' = completed_row env remarks a ∧ status a = SCHEDULED)
          ∨ (a' = no_show_row env a ∧ status a = SCHEDULED))).
Proof.
  destruct 1; simpl.
  all: try (left; split; [reflexivity|lia]).
  - right; left. exists body.
    split; [reflexivity|]. split; [apply eq_None_not_Some; tauto|].
    split; [assumption|]. split; [tauto|]. split; reflexivity.
  - right; left. exists body.
    split; [reflexivity|]. split; [apply eq_None_not_Some; tauto|].
    split; [assumption|]. split; [tauto|]. split; reflexivity.
  - right; right. exists id, a, (cancelled_row env why a).
    split; [assumption|]. split; [reflexivity|]. split; [reflexivity|].
    left. by exists why.
  - right; right. exists id, a, (completed_row env remarks a).
    split; [assumption|]. split; [reflexivity|]. split; [reflexivity|].
    right; left. by exists remarks.
  - right; right. exists id, a, (no_show_row env a).
    split; [assumption|]. split; [reflexivity|]. split; [reflexivity|].
    right; right. by split.
Qed.

Lemma extends_refl s : extends s s.
Proof.
  exists "". induction s as [|c s IH]; [reflexivity|].
  change (String c s = String c (s +:+ "")). by rewrite <- IH.
Qed.

Lemma extends_app s u : extends s (s +:+ u).
Proof. by exists u. Qed.

(** X11.  No command deletes a row, and no command takes an appointment
    back to SCHEDULED once it has left it; CANCELLED and COMPLETED are
    final. *)
Theorem rows_persist_and_never_reopen env c rows seq k a :
  rows !! k = Some a →
  ∃ a',
    table (serve env c rows seq) !! k = Some a'
    ∧ (status a ≠ SCHEDULED → status a' ≠ SCHEDULED)
    ∧ (status a = CANCELLED → status a' = CANCELLED)
    ∧ (status a = COMPLETED → status a' = COMPLETED).
Proof.
  intros Hk.
  destruct (table_step env rows seq c _ (serve_Served env rows seq c))
    as [[-> _]|[(body & _ & Hfresh & _ & _ & -> & _)
               |(id & b & b' & Hid & -> & _ & Hstep)]].
  - exists a. by repeat split.
  - exists a. split; [|by repeat split].
    rewrite lookup_insert_ne; [exact Hk|]. intros <-. congruence.
  - destruct (decide (id = k)) as [->|Hne].
    + rewrite Hid in Hk. injection Hk as ->.
      exists b'. split; [apply lookup_insert_eq|].
      destruct Hstep as [(why & -> & Hc & Hd)
                        |[(remarks & -> & Hs)|[-> Hs]]];
        simpl; repeat split; try done; try congruence.
    + exists a. split; [|by repeat split]. by rewrite lookup_insert_ne.
Qed.

(** A cancelled no-show stays away from SCHEDULED. *)
Lemma rows_persist_and_never_reopen_witness :
  ∃ a',
    table (serve sample_env (CancelCmd 1 None)
                 {[1 := sample_row NO_SHOW 0]} 2) !! 1 = Some a'
    ∧ status a' ≠ SCHEDULED.
Proof.
  destruct (rows_persist_and_never_reopen sample_env (CancelCmd 1 None)
              {[1 := sample_row NO_SHOW 0]} 2 1 (sample_row NO_SHOW 0))
    as (a' & Ht & Hs & _); [reflexivity|].
  exists a'. split; [exact Ht|]. apply Hs. discriminate.
Defined.

(** X12.  Whatever the command, a stored appointment keeps its patient,
    doctor, reason and [created_at]; [version] and [reschedule_count]
    never decrease; and its notes are only ever appended to. *)
Theorem history_is_kept env c rows seq k a a' :
  rows !! k = Some a →
  table (serve env c rows seq) !! k = Some a' →
  patient_id a' = patient_id a
  ∧ doctor_id a' = doctor_id a
  ∧ reason a' = reason a
  ∧ created_at a' = created_at a
  ∧ version a ≤ version a'
  ∧ reschedule_count a ≤ reschedule_count a'
  ∧ extends (default "" (notes a)) (default "" (notes a')).
Proof.
  intros Hk.
  assert (let same := a in
          patient_id same = patient_id a ∧ doctor_id same = doctor_id a
          ∧ reason same = reason a ∧ created_at same = created_at a
          ∧ version a ≤ version same
          ∧ reschedule_count a ≤ reschedule_count same
          ∧ extends (default "" (notes a)) (default "" (notes same))) as Hsame.
  { simpl. repeat split; try reflexivity; try lia. apply extends_refl. }
  destruct (table_step env rows seq c _ (serve_Served env rows seq c))
    as [[-> _]|[(body & _ & Hfresh & _ & _ & -> & _)
               |(id & b & b' & Hid & -> & _ & Hstep)]].
  - rewrite Hk. intros [= <-]. exact Hsame.
  - rewrite lookup_insert_ne by (intros <-; congruence).
    rewrite Hk. intros [= <-]. exact Hsame.
  - destruct (decide (id = k)) as [->|Hne].
    + rewrite Hid in Hk. injection Hk as ->.
      rewrite lookup_insert_eq. intros [= <-].
      destruct Hstep as [(why & -> & _)|[(remarks & -> & _)|[-> _]]];
        simpl; repeat split; try reflexivity; try lia;
        try apply extends_refl; apply extends_app.
    + rewrite lookup_insert_ne by done.
      rewrite Hk. intros [= <-]. exact Hsame.
Qed.

(** Version and notes across a cancel. *)
Lemma history_is_kept_witness :
  version (sample_row SCHEDULED 0)
  ≤ version (cancelled_row sample_env (Some "better") (sample_row SCHEDULED 0))
  ∧ extends (default "" (notes (sample_row SCHEDULED 0)))
            (default "" (notes (cancelled_row sample_env (Some "better")
                                              (sample_row SCHEDULED 0)))).
Proof.
  destruct (history_is_kept sample_env (CancelCmd 1 (Some "better"))
              {[1 := sample_row SCHEDULED 0]} 2 1 (sample_row SCHEDULED 0)
              (cancelled_row sample_env (Some "better")
                             (sample_row SCHEDULED 0)))
    as (_ & _ & _ & _ & Hv & _ & Hn); [reflexivity|by vm_compute|].
  split; [exact Hv|exact Hn].
Defined.

(** X13.  The handlers keep the [UNIQUE(doctor_id, appointment_date,
    start_time)] constraint: a table that satisfies it satisfies it after
    every command. *)
Theorem unique_slots_preserved env c rows seq :
  unique_slots rows → unique_slots (table (serve env c rows seq)).
Proof.
  intros Huniq.
  destruct (table_step env rows seq c _ (serve_Served env rows seq c))
    as [[-> _]|[(body & _ & Hfresh & _ & Hu & -> & _)
               |(id & a & a' & Hid & -> & _ & Hstep)]];
    [exact Huniq| |].
  - intros i j x y Hi Hj Hne Hsame.
    apply lookup_insert_Some in Hi as [[<- <-]|[Hi' Hi]];
      apply lookup_insert_Some in Hj as [[<- <-]|[Hj' Hj]];
      try congruence.
    + apply Hu. exists j, y. split; [exact Hj|]. split; [congruence|].
      destruct Hsame as (? & ? & ?). by repeat split.
    + apply Hu. exists i, x. by split.
    + by apply (Huniq i j x y).
  - assert (doctor_id a' = doctor_id a
            ∧ appointment_date a' = appointment_date a
            ∧ start_time a' = start_time a) as (Hd & Hdt & Hs).
    { by destruct Hstep as [(why & -> & _)|[(remarks & -> & _)|[-> _]]]. }
    intros i j x y Hi Hj Hne Hsame.
    apply lookup_insert_Some in Hi as [[<- <-]|[Hi' Hi]];
      apply lookup_insert_Some in Hj as [[<- <-]|[Hj' Hj]];
      try congruence.
    + apply (Huniq id j a y Hid Hj Hne).
      destruct Hsame as (? & ? & ?). repeat split; congruence.
    + apply (Huniq i id x a Hi Hid Hne).
      destruct Hsame as (? & ? & ?). repeat split; congruence.
    + by apply (Huniq i j x y).
Qed.

(** The lookups of a table of two rows. *)
Ltac two_rows H :=
  apply lookup_insert_Some in H as [[<- <-]|[_ H]];
  [|apply lookup_singleton_Some in H as [<- <-]].

(** Two appointments of doctor 7 are stored, at 10:00 on day 20000 and at
    07:00 on day 19999; the slot from 10:30 on day 20000 is booked as a
    third. *)
Lemma unique_slots_preserved_witness :
  unique_slots {[1 := sample_row SCHEDULED 0; 2 := same_day_row]}
  ∧ unique_slots
      (table (serve sample_env (BookCmd adjacent_booking)
                    {[1 := sample_row SCHEDULED 0; 2 := same_day_row]} 3))
  ∧ table (serve sample_env (BookCmd adjacent_booking)
                 {[1 := sample_row SCHEDULED 0; 2 := same_day_row]} 3)
    = {[1 := sample_row SCHEDULED 0; 2 := same_day_row;
        3 := booked_row sample_env adjacent_booking]}.
Proof.
  assert (unique_slots {[1 := sample_row SCHEDULED 0; 2 := same_day_row]})
    as Huniq.
  { intros i j x y Hi Hj Hne (_ & Hdate & _).
    two_rows Hi; two_rows Hj; (by apply Hne) || discriminate Hdate. }
  split; [exact Huniq|]. split.
  - exact (unique_slots_preserved sample_env (BookCmd adjacent_booking)
             {[1 := sample_row SCHEDULED 0; 2 := same_day_row]} 3 Huniq).
  - by vm_compute.
Defined.

(** A candidate the conflict query lets through overlaps no active row. *)
Lemma not_conflicting_no_overlap rows d dt s e ex k y n :
  ¬ conflicting rows d dt s e ex →
  rows !! k = Some y →
  (∀ x, ex = Some x → k ≠ x) →
  active y →
  doctor_id n = d → appointment_date n = dt →
  start_time n = s → end_time n = e →
  ¬ overlapping n y ∧ ¬ overlapping y n.
Proof.
  intros Hfree Hk Hex [Hc Hd] <- <- <- <-.
  split; intros (Hdoc & Hdate & H1 & H2); apply Hfree; exists k, y;
    (split; [exact Hk|]); apply conflict_where_iff;
    repeat (split; [congruence|]); (split; [exact Hex|]); left; lia.
Qed.

(** X14.  Served one after the other, the commands never create a double
    booking: if no two appointments with status other than CANCELLED and
    COMPLETED overlap for the same doctor and date, none do after any
    command. *)
Theorem no_double_booking_preserved env c rows seq :
  no_double_booking rows → no_double_booking (table (serve env c rows seq)).
Proof.
  intros Hinv.
  destruct (table_step env rows seq c _ (serve_Served env rows seq c))
    as [[-> _]|[(body & _ & Hfresh & Hfree & _ & -> & _)
               |(id & a & a' & Hid & -> & _ & Hstep)]];
    [exact Hinv| |].
  - intros i j x y Hi Hj Hne Hx Hy.
    apply lookup_insert_Some in Hi as [[<- <-]|[Hi' Hi]];
      apply lookup_insert_Some in Hj as [[<- <-]|[Hj' Hj]];
      try congruence.
    + by apply (not_conflicting_no_overlap rows _ _ _ _ None j y
                  (booked_row env body) Hfree Hj).
    + by apply (not_conflicting_no_overlap rows _ _ _ _ None i x
                  (booked_row env body) Hfree Hi).
    + by apply (Hinv i j x y).
  - assert (doctor_id a' = doctor_id a
            ∧ appointment_date a' = appointment_date a
            ∧ start_time a' = start_time a
            ∧ end_time a' = end_time a
            ∧ (active a' → active a)) as (Hd & Hdt & Hs & He & Hact).
    { destruct Hstep as [(why & -> & Hc & Hd)
                        |[(remarks & -> & Hs)|[-> Hs]]];
        repeat split; try reflexivity; simpl; try done;
        rewrite Hs; discriminate. }
    intros i j x y Hi Hj Hne Hx Hy.
    apply lookup_insert_Some in Hi as [[<- <-]|[Hi' Hi]];
      apply lookup_insert_Some in Hj as [[<- <-]|[Hj' Hj]];
      try congruence.
    + intros (? & ? & ? & ?).
      apply (Hinv id j a y Hid Hj Hne (Hact Hx) Hy).
      repeat split; congruence || lia.
    + intros (? & ? & ? & ?).
      apply (Hinv i id x a Hi Hid Hne Hx (Hact Hy)).
      repeat split; congruence || lia.
    + by apply (Hinv i j x y).
Qed.

(** Two active appointments of doctor 7 are stored, 10:00 to 10:30 on
    day 20000 and 07:00 to 07:30 on day 19999; the slot 10:30 to 11:00 on
    day 20000 is booked as a third. *)
Lemma no_double_booking_preserved_witness :
  no_double_booking {[1 := sample_row SCHEDULED 0; 2 := same_day_row]}
  ∧ no_double_booking
      (table (serve sample_env (BookCmd adjacent_booking)
                    {[1 := sample_row SCHEDULED 0; 2 := same_day_row]} 3))
  ∧ table (serve sample_env (BookCmd adjacent_booking)
                 {[1 := sample_row SCHEDULED 0; 2 := same_day_row]} 3)
    = {[1 := sample_row SCHEDULED 0; 2 := same_day_row;
        3 := booked_row sample_env adjacent_booking]}.
Proof.
  assert (no_double_booking {[1 := sample_row SCHEDULED 0; 2 := same_day_row]})
    as Hinv.
  { intros i j x y Hi Hj Hne _ _ (_ & Hdate & _).
    two_rows Hi; two_rows Hj; (by apply Hne) || discriminate Hdate. }
  split; [exact Hinv|]. split.
  - exact (no_double_booking_preserved sample_env (BookCmd adjacent_booking)
             {[1 := sample_row SCHEDULED 0; 2 := same_day_row]} 3 Hinv).
  - by vm_compute.
Defined.

(** X15.  If every id in use is below the next value of the sequence,
    this stays so after every command and the sequence never goes back;
    a booking can then fail on a constraint only through the doctor,
    date and start being taken, never through its id. *)
Theorem ids_stay_below_sequence env c rows seq :
  ids_below rows seq →
  ids_below (table (serve env c rows seq)) (sequence (serve env c rows seq))
  ∧ seq ≤ sequence (serve env c rows seq)
  ∧ ∀ body, replies (serve env (BookCmd body) rows seq) = [Next UniqueViolation] →
            unique_taken rows seq (booked_row env body).
Proof.
  intros Hinv. split; [|split].
  - destruct (table_step env rows seq c _ (serve_Served env rows seq c))
      as [[-> Hseq]|[(body & _ & Hfresh & _ & _ & -> & ->)
                    |(id & a & a' & Hid & -> & -> & _)]].
    + intros i Hi. specialize (Hinv i Hi). lia.
    + intros i Hi. apply lookup_insert_is_Some in Hi as [<-|[_ Hi]]; [lia|].
      specialize (Hinv i Hi). lia.
    + intros i Hi. apply lookup_insert_is_Some in Hi as [<-|[_ Hi]].
      * apply Hinv. by rewrite Hid.
      * by apply Hinv.
  - destruct (table_step env rows seq c _ (serve_Served env rows seq c))
      as [[_ Hseq]|[(body & _ & _ & _ & _ & _ & ->)
                   |(id & a & a' & _ & _ & -> & _)]]; lia.
  - intros body.
    paths env rows seq (BookCmd body); try discriminate;
      try (unfold lookup_failure;
           destruct (response_status_is_404 _); discriminate).
    intros _.
    match goal with H : is_Some _ ∨ _ |- _ => destruct H as [Hused|Hu] end;
      [|exact Hu].
    specialize (Hinv seq Hused). lia.
Qed.

(** A booking on the empty table with the sequence at 1. *)
Lemma ids_stay_below_sequence_witness :
  ids_below (table (serve sample_env (BookCmd sample_booking) ∅ 1))
            (sequence (serve sample_env (BookCmd sample_booking) ∅ 1)).
Proof.
  apply (ids_stay_below_sequence sample_env (BookCmd sample_booking) ∅ 1).
  intros i [x Hi]. by rewrite lookup_empty in Hi.
Defined.

(** X16.  A row of any status that holds the doctor, date and start of a
    booking request makes the booking fail: with SLOT_CONFLICT when the
    conflict query sees it, and otherwise (the row is CANCELLED or
    COMPLETED, say) with the constraint violation of the database, after
    the sequence has advanced.  A cancelled slot cannot be booked again
    at the same start. *)
Theorem released_slot_cannot_be_rebooked
    env body rows seq patient doctor k r :
  patientService env (Book.patient_id body) = Fulfilled patient →
  doctorService env (Book.doctor_id body) = Fulfilled doctor →
  now env < dateTime (Book.appointment_date body) (Book.start_time body) →
  rows !! k = Some r →
  k ≠ seq →
  doctor_id r = Book.doctor_id body →
  appointment_date r = Book.appointment_date body →
  start_time r = Book.start_time body →
  replies (serve env (BookCmd body) rows seq) = [Next (AppError 409 SLOT_CONFLICT)]
  ∨ (replies (serve env (BookCmd body) rows seq) = [Next UniqueViolation]
     ∧ sequence (serve env (BookCmd body) rows seq) = seq + 1
     ∧ ¬ conflicting rows (Book.doctor_id body) (Book.appointment_date body)
                     (Book.start_time body) (Book.end_time body) None).
Proof.
  intros Hp Hd Hfuture Hk Hne Hdoc Hdate Hstart.
  assert (fulfilled (patientService env (Book.patient_id body))) as Fp
    by (intros ?; rewrite Hp; discriminate).
  assert (fulfilled (doctorService env (Book.doctor_id body))) as Fd
    by (intros ?; rewrite Hd; discriminate).
  destruct (decide (conflicting rows (Book.doctor_id body)
                      (Book.appointment_date body) (Book.start_time body)
                      (Book.end_time body) None)) as [Hc|Hc].
  - left.
    by rewrite (Served_serve _ _ _ _ _
                  (book_slot_conflict env rows seq body Fp Fd Hc)).
  - right.
    assert (is_Some (rows !! seq) ∨ unique_taken rows seq (booked_row env body))
      as Hu.
    { right. exists k, r. split; [exact Hk|]. by repeat split. }
    rewrite (Served_serve _ _ _ _ _
               (book_unique_violation env rows seq body Fp Fd Hc Hu)).
    by repeat split.
Qed.

(** The slot of a cancelled appointment. *)
Lemma released_slot_cannot_be_rebooked_witness :
  replies (serve sample_env (BookCmd sample_booking)
                 {[1 := sample_row CANCELLED 0]} 2)
  = [Next (AppError 409 SLOT_CONFLICT)]
  ∨ (replies (serve sample_env (BookCmd sample_booking)
                    {[1 := sample_row CANCELLED 0]} 2)
     = [Next UniqueViolation]
     ∧ sequence (serve sample_env (BookCmd sample_booking)
                       {[1 := sample_row CANCELLED 0]} 2) = 2 + 1
     ∧ ¬ conflicting {[1 := sample_row CANCELLED 0]}
           (Book.doctor_id sample_booking)
           (Book.appointment_date sample_booking)
           (Book.start_time sample_booking) (Book.end_time sample_booking)
           None).
Proof.
  apply (released_slot_cannot_be_rebooked sample_env sample_booking
           {[1 := sample_row CANCELLED 0]} 2 "patient" "doctor" 1
           (sample_row CANCELLED 0)); try reflexivity.
  lia.
Defined.

(** X17.  A command that fails sends nothing to billing or notification;
    a command that succeeds sends to them only after its COMMIT; and
    only booking asks the patient and doctor services. *)
Theorem collaborator_traffic env c rows seq :
  (∀ e, replies (serve env c rows seq) = [Next e] →
        List.filter is_post (trace (serve env c rows seq)) = [])
  ∧ (∀ httpStatus payload,
       replies (serve env c rows seq) = [ResJson httpStatus payload] →
       ∃ before after,
         trace (serve env c rows seq) = before ++ Query Client COMMIT :: after
         ∧ List.filter is_post before = [])
  ∧ (target c ≠ None →
     List.filter is_lookup (trace (serve env c rows seq)) = []).
Proof.
  generalize (serve_Served env rows seq c).
  generalize (serve env c rows seq). intros w S.
  split; [|split].
  - intros e. destruct S; observe; try discriminate; intros _;
      reflexivity.
  - intros st p. destruct S; observe; try discriminate; intros _;
      unfold committed, book_lookups; simpl.
    all: match goal with
         | |- ∃ before after, ?x :: ?y :: ?z :: ?u :: ?v :: Query Client COMMIT :: ?t = _ ∧ _ =>
             exists [x; y; z; u; v], t
         | |- ∃ before after, ?x :: ?y :: ?z :: ?u :: Query Client COMMIT :: ?t = _ ∧ _ =>
             exists [x; y; z; u], t
         | |- ∃ before after, ?x :: ?y :: ?z :: Query Client COMMIT :: ?t = _ ∧ _ =>
             exists [x; y; z], t
         end; split; reflexivity.
  - intros Ht. destruct S; try (exfalso; by apply Ht);
      unfold rolled_back, committed, best_effort; simpl;
      repeat match goal with
             | |- context [match ?x with Rejected _ => _ | _ => _ end] =>
                 destruct x
             end; reflexivity.
Qed.

(** A refused cancel sends nothing. *)
Lemma collaborator_traffic_witness :
  List.filter is_post
    (trace (serve sample_env (CancelCmd 1 None)
                  {[1 := sample_row COMPLETED 0]} 2))
  = [].
Proof.
  apply (proj1 (collaborator_traffic sample_env (CancelCmd 1 None)
                  {[1 := sample_row COMPLETED 0]} 2)
           (AppError 400 INVALID_STATUS)).
  by vm_compute.
Defined.

(** ** Reading appointments *)

(** Run [getAppointment] symbolically. *)
Ltac run_fetch :=
  unfold fetch, getAppointment, fresh, try_catch, bind, query, execute,
    throw, tell, emit, visible, replies, statements;
  cbn.

Lemma fetch_replies env id rows seq :
  replies (fetch env id rows seq)
  = [match rows !! id with
     | Some a => ResJson 200 (mkPayload (Some (id, a)) None)
     | None => Next (AppError 404 APPOINTMENT_NOT_FOUND)
     end].
Proof. run_fetch. destruct (rows !! id); reflexivity. Qed.

(** X18.  [getAppointment] sends one SELECT through the pool, opens no
    transaction, changes neither table nor sequence, and answers 200
    with the stored row or APPOINTMENT_NOT_FOUND (404) when there is
    none. *)
Theorem getAppointment_reads env id rows seq :
  table (fetch env id rows seq) = rows
  ∧ sequence (fetch env id rows seq) = seq
  ∧ txn (fetch env id rows seq) = None
  ∧ statements (fetch env id rows seq) = [(Pool, SelectById id)]
  ∧ replies (fetch env id rows seq)
    = [match rows !! id with
       | Some a => ResJson 200 (mkPayload (Some (id, a)) None)
       | None => Next (AppError 404 APPOINTMENT_NOT_FOUND)
       end].
Proof.
  run_fetch. destruct (rows !! id); cbn; repeat split; reflexivity.
Qed.

(** X19.  The row an accepted command returns is the row a following
    [getAppointment] of that id returns. *)
Theorem reply_is_what_a_read_returns env c rows seq httpStatus payload :
  replies (serve env c rows seq) = [ResJson httpStatus payload] →
  ∃ id row,
    data payload = Some (id, row)
    ∧ ∀ env',
        replies (fetch env' id (table (serve env c rows seq))
                       (sequence (serve env c rows seq)))
        = [ResJson 200 (mkPayload (Some (id, row)) None)].
Proof.
  generalize (serve_Served env rows seq c).
  generalize (serve env c rows seq). intros w S.
  destruct S; observe; try discriminate; intros [= <- <-]; simpl;
    eexists _, _; (split; [reflexivity|]); intros env';
    rewrite fetch_replies; by rewrite lookup_insert_eq.
Qed.

(** Reading back a booking. *)
Lemma reply_is_what_a_read_returns_witness :
  ∃ id row,
    ∀ env',
      replies (fetch env' id
                 (table (serve sample_env (BookCmd sample_booking) ∅ 1))
                 (sequence (serve sample_env (BookCmd sample_booking) ∅ 1)))
      = [ResJson 200 (mkPayload (Some (id, row)) None)].
Proof.
  destruct (reply_is_what_a_read_returns sample_env (BookCmd sample_booking)
              ∅ 1 201
              (mkPayload (Some (1, booked_row sample_env sample_booking)) None))
    as (id & row & _ & Hread); [by vm_compute|].
  exists id, row. exact Hread.
Defined.

(** The clause in words. *)
Lemma search_where_iff q r :
  search_where q r = true ↔
    (∀ p, Search.patient_id q = Some p → p ≠ 0 → patient_id r = p)
    ∧ (∀ d, Search.doctor_id q = Some d → d ≠ 0 → doctor_id r = d)
    ∧ (∀ s, Search.status q = Some s → status r = s)
    ∧ (∀ d, Search.date q = Some d → appointment_date r = d).
Proof.
  unfold search_where, truthy.
  rewrite !andb_true_iff.
  destruct (Search.patient_id q) as [p|], (Search.doctor_id q) as [d|],
    (Search.status q) as [s|], (Search.date q) as [dt|];
    repeat match goal with
           | |- context [?x =? 0] => destruct (Z.eqb_spec x 0)
           end; simpl;
    rewrite ?bool_decide_eq_true, ?Z.eqb_eq;
    split;
    try (intros [[[? ?] ?] ?]; repeat split; intros; simplify_eq;
         try congruence; try contradiction; try done);
    intros (Hp & Hd & Hs & Hdt); repeat split;
    try reflexivity; try (f_equal; by eauto); by eauto.
Qed.

Lemma stdlib_filter_is_filter {A} (f : A → bool) (l : list A) :
  List.filter f l = filter (fun x => f x = true) l.
Proof.
  induction l as [|x l IH]; [reflexivity|]. simpl.
  rewrite filter_cons. destruct (f x) eqn:Hx.
  - rewrite decide_True by done. by rewrite IH.
  - rewrite decide_False by congruence. exact IH.
Qed.

#[local] Instance search_order_total : Total search_order.
Proof. intros x y. unfold search_order. lia. Qed.

#[local] Instance search_order_trans : Transitive search_order.
Proof. intros x y z. unfold search_order. lia. Qed.

Lemma ceil_div_bounds a b :
  0 < b → (ceil_div a b - 1) * b < a ≤ ceil_div a b * b.
Proof.
  intros Hb. unfold ceil_div.
  pose proof (Z.mul_div_le (- a) b Hb).
  pose proof (Z.mul_succ_div_gt (- a) b Hb).
  nia.
Qed.

(** X20.  For [page >= 1] and [limit >= 1], [getAppointments] answers
    with at most [limit] distinct rows, each stored under its id and
    matching every filter given, in descending order of date and then
    start time. *)
Theorem search_page_contents q rows :
  1 ≤ default 1 (Search.page q) →
  1 ≤ default 10 (Search.limit q) →
  ∃ r,
    getAppointments q rows = Some r
    ∧ (∀ id a, (id, a) ∈ Search.data r →
         rows !! id = Some a
         ∧ (∀ p, Search.patient_id q = Some p → p ≠ 0 → patient_id a = p)
         ∧ (∀ d, Search.doctor_id q = Some d → d ≠ 0 → doctor_id a = d)
         ∧ (∀ s, Search.status q = Some s → status a = s)
         ∧ (∀ d, Search.date q = Some d → appointment_date a = d))
    ∧ Z.of_nat (length (Search.data r)) ≤ default 10 (Search.limit q)
    ∧ StronglySorted search_order (Search.data r)
    ∧ NoDup (Search.data r).
Proof.
  intros Hpage Hlimit. unfold getAppointments.
  replace (default 10 (Search.limit q) <? 0) with false
    by (symmetry; apply Z.ltb_ge; lia).
  replace ((default 1 (Search.page q) - 1) * default 10 (Search.limit q) <? 0)
    with false by (symmetry; apply Z.ltb_ge; nia).
  simpl. eexists. split; [reflexivity|]. simpl.
  set (matching := List.filter _ (map_to_list rows)).
  assert (take (Z.to_nat (default 10 (Search.limit q)))
            (drop (Z.to_nat ((default 1 (Search.page q) - 1)
                             * default 10 (Search.limit q)))
                  (merge_sort search_order matching))
          `sublist_of` merge_sort search_order matching) as Hsub.
  { etrans; [apply sublist_take|apply sublist_drop]. }
  split; [|split; [|split]].
  - intros id a Hin.
    eapply elem_of_sublist in Hin; [|exact Hsub].
    rewrite merge_sort_Permutation in Hin.
    unfold matching in Hin. rewrite stdlib_filter_is_filter in Hin.
    apply list_elem_of_filter in Hin as [Hw Hin].
    apply elem_of_map_to_list in Hin. split; [exact Hin|].
    by apply search_where_iff in Hw.
  - rewrite length_take. lia.
  - assert (StronglySorted search_order (merge_sort search_order matching))
      as Hs.
    { apply StronglySorted_merge_sort; apply _. }
    rewrite <- (take_drop (Z.to_nat ((default 1 (Search.page q) - 1)
                                     * default 10 (Search.limit q)))
                  (merge_sort search_order matching)) in Hs.
    apply StronglySorted_app_1_r in Hs.
    rewrite <- (take_drop (Z.to_nat (default 10 (Search.limit q)))
                  (drop _ _)) in Hs.
    by apply StronglySorted_app_1_l in Hs.
  - eapply sublist_NoDup; [|exact Hsub].
    rewrite merge_sort_Permutation. unfold matching.
    rewrite stdlib_filter_is_filter. apply NoDup_filter, NoDup_map_to_list.
Qed.

(** Two appointments of doctor 7. *)
Lemma search_page_contents_witness :
  ∃ r,
    getAppointments sample_search
      {[1 := sample_row SCHEDULED 0; 2 := imminent_row]} = Some r
    ∧ Z.of_nat (length (Search.data r)) ≤ 10.
Proof.
  destruct (search_page_contents sample_search
              {[1 := sample_row SCHEDULED 0; 2 := imminent_row]})
    as (r & Hr & _ & Hlen & _); [simpl; lia|simpl; lia|].
  exists r. split; [exact Hr|exact Hlen].
Defined.

(** X21.  For [page >= 1] and [limit >= 1] the pagination block echoes
    page and limit, [totalCount] is the number of stored rows matching
    the filters whatever the page, [totalPages] is the least number of
    pages of [limit] rows that hold them, and a page beyond it is
    empty. *)
Theorem search_pagination q rows r :
  1 ≤ default 1 (Search.page q) →
  1 ≤ default 10 (Search.limit q) →
  getAppointments q rows = Some r →
  Search.pageOut r = default 1 (Search.page q)
  ∧ Search.limitOut r = default 10 (Search.limit q)
  ∧ Search.totalCount r
    = Z.of_nat (size (filter (fun kr : Z * Appointment =>
                                search_where q kr.2 = true) rows))
  ∧ (∃ pages,
       Search.totalPages r = Some pages
       ∧ (pages - 1) * Search.limitOut r < Search.totalCount r
         ≤ pages * Search.limitOut r
       ∧ (pages < Search.pageOut r → Search.data r = [])).
Proof.
  intros Hpage Hlimit. unfold getAppointments.
  replace (default 10 (Search.limit q) <? 0) with false
    by (symmetry; apply Z.ltb_ge; lia).
  replace ((default 1 (Search.page q) - 1) * default 10 (Search.limit q) <? 0)
    with false by (symmetry; apply Z.ltb_ge; nia).
  replace (default 10 (Search.limit q) =? 0) with false
    by (symmetry; apply Z.eqb_neq; lia).
  simpl. intros [= <-]. simpl.
  set (matching := List.filter _ (map_to_list rows)).
  split; [reflexivity|]. split; [reflexivity|]. split.
  - f_equal. unfold matching. rewrite stdlib_filter_is_filter.
    rewrite map_filter_alt, map_size_list_to_map; [reflexivity|].
    apply NoDup_fmap_fst.
    + intros k x y Hx Hy.
      apply list_elem_of_filter in Hx as [_ Hx], Hy as [_ Hy].
      apply elem_of_map_to_list in Hx, Hy. congruence.
    + apply NoDup_filter, NoDup_map_to_list.
  - eexists. split; [reflexivity|].
    pose proof (ceil_div_bounds (Z.of_nat (length matching))
                  (default 10 (Search.limit q))) as Hceil.
    split; [apply Hceil; lia|].
    intros Hbeyond. rewrite drop_ge; [by rewrite take_nil|].
    rewrite (Permutation_length (merge_sort_Permutation _ _)). nia.
Qed.

(** Two appointments of doctor 7. *)
Lemma search_pagination_witness :
  ∃ r,
    getAppointments sample_search
      {[1 := sample_row SCHEDULED 0; 2 := imminent_row]} = Some r
    ∧ Search.totalCount r
      = Z.of_nat (size (filter (fun kr : Z * Appointment =>
                                  search_where sample_search kr.2 = true)
                               ({[1 := sample_row SCHEDULED 0;
                                  2 := imminent_row]}
                                : gmap Z Appointment))).
Proof.
  destruct (getAppointments sample_search
              {[1 := sample_row SCHEDULED 0; 2 := imminent_row]})
    as [r|] eqn:Hr; [|by vm_compute in Hr].
  exists r. split; [reflexivity|].
  apply (search_pagination sample_search
           {[1 := sample_row SCHEDULED 0; 2 := imminent_row]} r);
    [simpl; lia|simpl; lia|exact Hr].
Defined.

(** ** The seed loader *)










(** X23.  The loader stores rows under ids of its own without moving the
    sequence; a booking whose id from the sequence is already in use
    passes every check, fails on the primary key with the violation of
    the database, leaves the table alone and uses up the id. *)
Theorem used_id_blocks_booking env body rows seq patient doctor :
  patientService env (Book.patient_id body) = Fulfilled patient →
  doctorService env (Book.doctor_id body) = Fulfilled doctor →
  now env < dateTime (Book.appointment_date body) (Book.start_time body) →
  ¬ conflicting rows (Book.doctor_id body) (Book.appointment_date body)
                (Book.start_time body) (Book.end_time body) None →
  is_Some (rows !! seq) →
  replies (serve env (BookCmd body) rows seq) = [Next UniqueViolation]
  ∧ table (serve env (BookCmd body) rows seq) = rows
  ∧ sequence (serve env (BookCmd body) rows seq) = seq + 1.
Proof.
  intros Hp Hd Hfuture Hfree Hused.
  assert (fulfilled (patientService env (Book.patient_id body))) as Fp
    by (intros ?; rewrite Hp; discriminate).
  assert (fulfilled (doctorService env (Book.doctor_id body))) as Fd
    by (intros ?; rewrite Hd; discriminate).
  by rewrite (Served_serve _ _ _ _ _
                (book_unique_violation env rows seq body Fp Fd Hfree
                   (or_introl Hused))).
Qed.

(** Id 1 seeded, sequence still at 1. *)
Lemma used_id_blocks_booking_witness :
  replies (serve sample_env (BookCmd sample_booking)
                 (loadSeedData sample_env [sample_seed] ∅) 1)
  = [Next UniqueViolation]
  ∧ table (serve sample_env (BookCmd sample_booking)
                 (loadSeedData sample_env [sample_seed] ∅) 1)
    = loadSeedData sample_env [sample_seed] ∅
  ∧ sequence (serve sample_env (BookCmd sample_booking)
                    (loadSeedData sample_env [sample_seed] ∅) 1) = 1 + 1.
Proof.
  apply (used_id_blocks_booking sample_env sample_booking
           (loadSeedData sample_env [sample_seed] ∅) 1 "patient" "doctor");
    try reflexivity.
  - unfold conflicting. apply (bool_decide_eq_false_1 _). by vm_compute.
  - by eexists.
Defined.
